(** * laserbeamsize: geometry and cropping primitives of [image_tools.py]

    A shallow embedding of the raster line walk, the line sampler, the
    rectangular cropper, the image rotation and the test-image validator of
    [laserbeamsize/image_tools.py], followed by the properties the
    specification states about them.

    Conventions.
    - Python [int] is [Z].  A finite Python [float] is a rational, so float
      arguments are [Q]; [int(x)] and [round(x)] are exact on them.  Float
      arithmetic is read as exact rational arithmetic (rounding error is not
      modelled) and NaN / infinities are outside the model.
    - A 2-D NumPy array is a list of rows together with its column count
      (the column count survives when there are no rows).
    - A Python exception is the [Raise] outcome of the [result] type. *)

From Stdlib Require Import ZArith QArith Qround Qabs Lia String.
From stdpp Require Import base tactics option list.

Open Scope Z_scope.

(** ** Python outcomes *)

Inductive exn : Set := ValueError | IndexError | TypeError.

Inductive result (A : Type) : Type :=
| Ok (a : A)
| Raise (e : exn).
Arguments Ok {A} a.
Arguments Raise {A} e.

(** Sequencing: an exception in [m] skips the rest. *)
Definition bind {A B} (m : result A) (k : A -> result B) : result B :=
  match m with
  | Ok a => k a
  | Raise e => Raise e
  end.

Notation "'let!' x ':=' m 'in' k" := (bind m (fun x => k))
  (at level 10, x name, m at level 100, k at level 200,
   format "'[v' 'let!'  x  ':='  m  'in' '/' k ']'").

Definition raises {A} (m : result A) : Prop := exists e, m = Raise e.

(** ** Python numbers *)

Module Py.

(** [int(x)] on a float: truncation toward zero. *)
Definition int (x : Q) : Z :=
  if Qle_bool 0 x then Qfloor x else Qceiling x.

(** [round(x)] on a float: nearest integer, ties to the even one. *)
Definition round (x : Q) : Z :=
  let f := Qfloor x in
  match Qcompare (x - inject_Z f) (1 # 2) with
  | Lt => f
  | Gt => f + 1
  | Eq => if Z.even f then f else f + 1
  end.

(** [x < y] and [x <= y] on floats. *)
Definition le (x y : Q) : bool := Qle_bool x y.
Definition lt (x y : Q) : bool := negb (Qle_bool y x).

(** The builtins [min] and [max] over a sequence: the first extremal
    element; an empty sequence raises [ValueError]. *)
Definition min (l : list Q) : result Q :=
  match l with
  | [] => Raise ValueError
  | x :: l => Ok (foldl (fun m y => if lt y m then y else m) x l)
  end.

Definition max (l : list Q) : result Q :=
  match l with
  | [] => Raise ValueError
  | x :: l => Ok (foldl (fun m y => if lt m y then y else m) x l)
  end.

(** [range(a, b)]. *)
Definition range (a b : Z) : list Z := seqZ a (b - a).

(** One end of a slice, [a:b] or the open [:].  A negative index counts
    from the end, and every index is clamped to [0, len]. *)
Inductive slice : Set :=
| Slice (lo hi : Z)
| SliceAll.

Definition adjust (len i : Z) : Z :=
  if i <? 0 then Z.max (i + len) 0 else Z.min i len.

(** Start and number of elements selected from a sequence of [len]. *)
Definition slice_start (len : nat) (s : slice) : nat :=
  match s with
  | Slice lo _ => Z.to_nat (adjust (Z.of_nat len) lo)
  | SliceAll => 0%nat
  end.

Definition slice_len (len : nat) (s : slice) : nat :=
  match s with
  | Slice lo hi =>
      Z.to_nat (adjust (Z.of_nat len) hi - adjust (Z.of_nat len) lo)
  | SliceAll => len
  end.

Definition get_slice {A} (s : slice) (l : list A) : list A :=
  take (slice_len (length l) s) (drop (slice_start (length l) s) l).

(** Is position [i] selected by the slice? *)
Definition in_slice (len : nat) (s : slice) (i : nat) : bool :=
  (slice_start len s <=? i)%nat && (i <? slice_start len s + slice_len len s)%nat.

End Py.

(** ** Bresenham line walk: [line] *)

Record line_state : Set := LineState {
  ls_r : Z;
  ls_error : Z;
  ls_rr : list Z;
  ls_cc : list Z
}.

(** One pass through the body of the [for c in range(c0, c1 + 1)] loop. *)
Definition line_body (steep : bool) (dr dc step : Z)
    (st : line_state) (c : Z) : line_state :=
  let rr := if steep then ls_rr st ++ [c] else ls_rr st ++ [ls_r st] in
  let cc := if steep then ls_cc st ++ [ls_r st] else ls_cc st ++ [c] in
  let error := ls_error st - dr in
  if error <? 0
  then LineState (ls_r st + step) (error + dc) rr cc
  else LineState (ls_r st) error rr cc.

(** The endpoints after the two conditional swaps. *)
Definition line_normalise (r0 c0 r1 c1 : Z) : bool * (Z * Z * Z * Z) :=
  let steep := Z.abs (c1 - c0) <? Z.abs (r1 - r0) in
  let '(r0, c0, r1, c1) :=
    if steep then (c0, r0, c1, r1) else (r0, c0, r1, c1) in
  let '(r0, c0, r1, c1) :=
    if c1 <? c0 then (r1, c1, r0, c0) else (r0, c0, r1, c1) in
  (steep, (r0, c0, r1, c1)).

(** [line(r0, c0, r1, c1)] on integer arguments ([int(.)] is the identity
    on them); the result is the pair of arrays [(rr, cc)]. *)
Definition line (r0 c0 r1 c1 : Z) : list Z * list Z :=
  let '(steep, (r0, c0, r1, c1)) := line_normalise r0 c0 r1 c1 in
  let dr := Z.abs (r1 - r0) in
  let dc := c1 - c0 in
  let error := dc `div` 2 in
  let r := r0 in
  let step := if r0 <? r1 then 1 else -1 in
  let st := foldl (line_body steep dr dc step)
                  (LineState r error [] []) (Py.range c0 (c1 + 1)) in
  (ls_rr st, ls_cc st).

(** The (row, col) pairs of a pair of coordinate arrays. *)
Definition points (rc : list Z * list Z) : list (Z * Z) := zip rc.1 rc.2.

(** ** NumPy arrays *)

(** What the model needs of an element type: the value [np.zeros] fills
    with, and the conversion behind [dtype=float]. *)
Class Dtype (A : Type) := { dzero : A; to_float : A -> Q }.

#[global] Instance Z_dtype : Dtype Z := {| dzero := 0; to_float := inject_Z |}.
#[global] Instance Q_dtype : Dtype Q := {| dzero := 0%Q; to_float := id |}.
#[global] Instance bool_dtype : Dtype bool :=
  {| dzero := false; to_float := fun b => if b then 1%Q else 0%Q |}.

Record ndarray (A : Type) : Type := NdArray {
  nd_rows : list (list A);
  nd_ncols : nat
}.
Arguments NdArray {A} nd_rows nd_ncols.
Arguments nd_rows {A} n.
Arguments nd_ncols {A} n.

Module Np.
Section ndarray.
Context {A : Type}.

Definition nrows (a : ndarray A) : nat := length (nd_rows a).

(** [a.shape] *)
Definition shape (a : ndarray A) : nat * nat := (nrows a, nd_ncols a).

(** Every row has the array's column count. *)
Definition wf (a : ndarray A) : Prop :=
  Forall (fun row => length row = nd_ncols a) (nd_rows a).

(** The element at row [i], column [j], both in range. *)
Definition get (a : ndarray A) (i j : nat) : option A :=
  row ← nd_rows a !! i; row !! j.

(** [np.full((h, w), x)]; a negative dimension raises [ValueError]. *)
Definition full (h w : Z) (x : A) : result (ndarray A) :=
  if (h <? 0) || (w <? 0) then Raise ValueError
  else Ok (NdArray (replicate (Z.to_nat h) (replicate (Z.to_nat w) x))
                   (Z.to_nat w)).

(** [a[rs, cs]] with two slices. *)
Definition slice2 (a : ndarray A) (rs cs : Py.slice) : ndarray A :=
  NdArray (Py.get_slice cs <$> Py.get_slice rs (nd_rows a))
          (Py.slice_len (nd_ncols a) cs).

(** Can an axis of extent [src] be assigned to one of extent [dst]?
    Equal extents, or a single element repeated. *)
Definition broadcasts (src dst : nat) : bool :=
  (src =? dst)%nat || (src =? 1)%nat.

Definition bidx (src i : nat) : nat := if (src =? 1)%nat then 0%nat else i.

(** The rows after an assignment through a row slice: [f i] rewrites the
    selected row [i], the other rows stay. *)
Definition rewrite_rows (a : ndarray A) (rs : Py.slice)
    (f : nat -> list A -> list A) : list (list A) :=
  imap (fun i row => if Py.in_slice (nrows a) rs i then f i row else row)
       (nd_rows a).

(** [a[rs, cs] = src]; shapes that do not broadcast raise [ValueError]. *)
Definition set_slice2 (a : ndarray A) (rs cs : Py.slice)
    (src : ndarray A) : result (ndarray A) :=
  let r0 := Py.slice_start (nrows a) rs in
  let c0 := Py.slice_start (nd_ncols a) cs in
  if broadcasts (nrows src) (Py.slice_len (nrows a) rs)
     && broadcasts (nd_ncols src) (Py.slice_len (nd_ncols a) cs)
  then
    Ok (NdArray
          (rewrite_rows a rs (fun i row =>
             imap (fun j x =>
               if Py.in_slice (nd_ncols a) cs j then
                 default x (get src (bidx (nrows src) (i - r0))
                                    (bidx (nd_ncols src) (j - c0)))
               else x) row))
          (nd_ncols a))
  else Raise ValueError.

(** [a[rs, cs] = x] for a scalar [x]. *)
Definition fill_slice2 (a : ndarray A) (rs cs : Py.slice) (x : A)
    : ndarray A :=
  NdArray
    (rewrite_rows a rs (fun _ row =>
       imap (fun j y => if Py.in_slice (nd_ncols a) cs j then x else y) row))
    (nd_ncols a).

(** An integer index into an axis of extent [len]: negative indices wrap
    once, anything else out of range is an [IndexError]. *)
Definition wrap_index (len : nat) (i : Z) : option nat :=
  if (0 <=? i) && (i <? Z.of_nat len) then Some (Z.to_nat i)
  else if (- Z.of_nat len <=? i) && (i <? 0)
       then Some (Z.to_nat (i + Z.of_nat len))
       else None.

Definition item (a : ndarray A) (r c : Z) : result A :=
  match wrap_index (nrows a) r, wrap_index (nd_ncols a) c with
  | Some i, Some j =>
      match get a i j with
      | Some x => Ok x
      | None => Raise IndexError
      end
  | _, _ => Raise IndexError
  end.

(** [a[rr, cc]] with two integer index arrays of one length. *)
Definition take_points (a : ndarray A) (rr cc : list Z) : result (list A) :=
  if (length rr =? length cc)%nat
  then foldr (fun p acc =>
                let! x := item a p.1 p.2 in
                let! xs := acc in
                Ok (x :: xs)) (Ok []) (zip rr cc)
  else Raise IndexError.

(** The elements of [v] where the boolean array [m] is true. *)
Fixpoint select (m : list bool) (v : list A) : list A :=
  match m, v with
  | b :: m, x :: v => if b then x :: select m v else select m v
  | _, _ => []
  end.

(** [v[m]] with a 1-D boolean mask: the lengths must agree. *)
Definition compress (m : list bool) (v : list A) : result (list A) :=
  if (length m =? length v)%nat then Ok (select m v) else Raise IndexError.

End ndarray.

(** [np.zeros((h, w), dtype)] *)
Definition zeros {A} `{Dtype A} (h w : Z) : result (ndarray A) :=
  full h w dzero.

(** [np.full_like(a, 0)] *)
Definition zeros_like {A} `{Dtype A} (a : ndarray A) : ndarray A :=
  NdArray (replicate (nrows a) (replicate (nd_ncols a) dzero)) (nd_ncols a).

(** [np.linspace(0, 1, n)] *)
Definition linspace01 (n : nat) : list Q :=
  (fun i : nat =>
     if (n - 1 =? 0)%nat then 0%Q
     else (inject_Z (Z.of_nat i) / inject_Z (Z.of_nat (n - 1)))%Q)
    <$> seq 0 n.

End Np.

(** ** Images: plain or masked arrays *)

Inductive image (A : Type) : Type :=
| Plain (a : ndarray A)
| Masked (a : ndarray A) (mask : ndarray bool).
Arguments Plain {A} a.
Arguments Masked {A} a mask.

(** A 1-D array read out of an image. *)
Inductive samples (A : Type) : Type :=
| Plain1 (z : list A)
| Masked1 (z : list A) (mask : list bool).
Arguments Plain1 {A} z.
Arguments Masked1 {A} z mask.

Section image.
Context {A : Type}.

(** The underlying data buffer. *)
Definition img_data (im : image A) : ndarray A :=
  match im with
  | Plain a => a
  | Masked a _ => a
  end.

Definition img_shape (im : image A) : nat * nat := Np.shape (img_data im).

(** Data and mask are rectangular and of one shape. *)
Definition img_wf (im : image A) : Prop :=
  match im with
  | Plain a => Np.wf a
  | Masked a m => Np.wf a /\ Np.wf m /\ Np.shape m = Np.shape a
  end.

(** [image[rs, cs]]: a masked array slices data and mask alike. *)
Definition img_slice2 (im : image A) (rs cs : Py.slice) : image A :=
  match im with
  | Plain a => Plain (Np.slice2 a rs cs)
  | Masked a m => Masked (Np.slice2 a rs cs) (Np.slice2 m rs cs)
  end.

(** [image[rr, cc]] *)
Definition img_take_points (im : image A) (rr cc : list Z)
    : result (samples A) :=
  match im with
  | Plain a => let! z := Np.take_points a rr cc in Ok (Plain1 z)
  | Masked a m =>
      let! z := Np.take_points a rr cc in
      let! zm := Np.take_points m rr cc in
      Ok (Masked1 z zm)
  end.

Definition is_plain (im : image A) : bool :=
  match im with
  | Plain _ => true
  | Masked _ _ => false
  end.
End image.

(** ** External numerical routines

    [np.sin], [np.cos], [np.exp], [np.degrees], [np.hypot] and
    [scipy.ndimage.rotate] are library code; the functions below are stated
    for any implementation of them.  [astype_uint bits] is the cast to
    [np.uint8] / [np.uint16]; [add_noise] is the random-noise block of
    [create_test_image]. *)
Class NumLib : Type := {
  np_sin : Q -> Q;
  np_cos : Q -> Q;
  np_exp : Q -> Q;
  np_degrees : Q -> Q;
  np_hypot : Q -> Q -> Q;
  ndimage_rotate : forall A, Dtype A -> ndarray A -> Q -> ndarray A;
  add_noise : ndarray Q -> Q -> string -> Q -> ndarray Q;
  astype_uint : nat -> ndarray Q -> ndarray Q
}.

(** The float [2.1 * np.pi], exactly: 6.5973445725385655. *)
Definition two_point_one_pi : Q := 3713974819814931 # 562949953421312.

(** An argument that the caller may pass as an [int] or as a [float]. *)
Inductive pynum : Set :=
| PyInt (n : Z)
| PyFloat (x : Q).

Section image_tools.
Context {lib : NumLib}.

(** *** [rotate_points] *)
Definition rotate_points (x y x0 y0 phi : Q) : Q * Q :=
  let xp := (x - x0)%Q in
  let yp := (y - y0)%Q in
  let s := np_sin (- phi)%Q in
  let c := np_cos (- phi)%Q in
  let xf := (xp * c - yp * s)%Q in
  let yf := (xp * s + yp * c)%Q in
  ((xf + x0)%Q, (yf + y0)%Q).

(** *** [rotated_rect_arrays]: the two rows [x_rot], [y_rot] *)
Definition rotated_rect_arrays (xc_px yc_px d_major d_minor phi : Q)
    : list Q * list Q :=
  let rx := (d_major / 2)%Q in
  let ry := (d_minor / 2)%Q in
  let x := (fun a => a + xc_px)%Q <$> [- rx; - rx; rx; rx; - rx]%Q in
  let y := (fun a => a + yc_px)%Q <$> [- ry; ry; ry; - ry; - ry]%Q in
  let rot := zip_with (fun a b => rotate_points a b xc_px yc_px phi) x y in
  (rot.*1, rot.*2).

Section pixels.
Context {A : Type} {dt : Dtype A}.

(** *** [values_along_line]

    [line_indices] is the first half of the function: the row and column
    indices of the line that fall in the image, with their distances.
    [values_along_line] then reads the image at these indices. *)
Definition line_indices (im : image A) (x0 y0 x1 y1 : Q)
    : result (list Z * list Z * list Q) :=
  let '(height, width) := img_shape im in
  let '(rr_full, cc_full) :=
    line (Py.round y0) (Py.round x0) (Py.round y1) (Py.round x1) in
  let total_distance := np_hypot (x1 - x0)%Q (y1 - y0)%Q in
  let d_full :=
    if Py.lt 0 total_distance
    then (fun s => (s - (1 # 2)) * total_distance)%Q
           <$> Np.linspace01 (length rr_full)
    else replicate (length rr_full) 0%Q in
  let valid_bounds :=
    zip_with (fun r c => (0 <=? r) && (r <? Z.of_nat height)
                         && (0 <=? c) && (c <? Z.of_nat width))
             rr_full cc_full in
  let! rr := Np.compress valid_bounds rr_full in
  let! cc := Np.compress valid_bounds cc_full in
  let! d := Np.compress valid_bounds d_full in
  Ok (rr, cc, d).

Definition values_along_line (im : image A) (x0 y0 x1 y1 : Q)
    : result (list Q * list Q * list Q * list Q) :=
  let! idx := line_indices im x0 y0 x1 y1 in
  let '(rr, cc, d) := idx in
  let! z := img_take_points im rr cc in
  match z with
  | Masked1 zdata zmask =>
      if existsb id zmask then
        let valid := negb <$> zmask in
        let! cc := Np.compress valid cc in
        let! rr := Np.compress valid rr in
        let! d := Np.compress valid d in
        let! z := Np.compress valid zdata in
        Ok (inject_Z <$> cc, inject_Z <$> rr, to_float <$> z, d)
      else Ok (inject_Z <$> cc, inject_Z <$> rr, to_float <$> zdata, d)
  | Plain1 z => Ok (inject_Z <$> cc, inject_Z <$> rr, to_float <$> z, d)
  end.

(** *** [rotate_image]

    [rotate_offsets] is the first half of the function (the position of the
    centre in the rotated image, as the integer offsets [voff], [hoff]);
    [recrop] is the second half (the copy into a zero array of the original
    shape). *)
Definition rotate_offsets (original rotated : ndarray A) (x0 y0 phi : Q)
    : Z * Z :=
  let '(ov, oh) := Np.shape original in
  let cy := ((inject_Z (Z.of_nat ov) - 1) / 2)%Q in
  let cx := ((inject_Z (Z.of_nat oh) - 1) / 2)%Q in
  let '(rv, rh) := Np.shape rotated in
  let ry := ((inject_Z (Z.of_nat rv) - 1) / 2)%Q in
  let rx := ((inject_Z (Z.of_nat rh) - 1) / 2)%Q in
  let '(new_x0, new_y0) := rotate_points x0 y0 cx cy phi in
  let new_x0 := (new_x0 + (rx - cx))%Q in
  let new_y0 := (new_y0 + (ry - cy))%Q in
  let voff := Py.int (new_y0 - y0) in
  let hoff := Py.int (new_x0 - x0) in
  (voff, hoff).

Definition recrop (original rotated : ndarray A) (voff hoff : Z)
    : result (ndarray A) :=
  let '(ov, oh) := Np.shape original in
  let '(rv, rh) := Np.shape rotated in
  let ov := Z.of_nat ov in
  let oh := Z.of_nat oh in
  let rv := Z.of_nat rv in
  let rh := Z.of_nat rh in
  let rv1 := Z.max voff 0 in
  let sv1 := Z.max (- voff) 0 in
  let vlen := Z.min (voff + ov) rv - rv1 in
  let rh1 := Z.max hoff 0 in
  let sh1 := Z.max (- hoff) 0 in
  let hlen := Z.min (hoff + oh) rh - rh1 in
  let s := Np.zeros_like original in
  let sv1_end := sv1 + vlen in
  let sh1_end := sh1 + hlen in
  let rv1_end := rv1 + vlen in
  let rh1_end := rh1 + hlen in
  Np.set_slice2 s (Py.Slice sv1 sv1_end) (Py.Slice sh1 sh1_end)
    (Np.slice2 rotated (Py.Slice rv1 rv1_end) (Py.Slice rh1 rh1_end)).

Definition rotate_image (original : ndarray A) (x0 y0 : Q) (phi : option Q)
    : result (ndarray A) :=
  match phi with
  | None => Ok original
  | Some phi =>
      let rotated := ndimage_rotate A dt original (np_degrees phi) in
      let '(voff, hoff) := rotate_offsets original rotated x0 y0 phi in
      recrop original rotated voff hoff
  end.

(** *** [crop_image_to_rect]

    The sentinel [(None, None, None)] is [Ok None]. *)
Definition crop_image_to_rect (im : image A)
    (xc_px yc_px xmin xmax ymin ymax : Q) : result (option (image A * Q * Q)) :=
  let '(v, h) := img_shape im in
  let v := Z.of_nat v in
  let h := Z.of_nat h in
  let xmin_req := Py.int xmin in
  let xmax_req := Py.int xmax in
  let ymin_req := Py.int ymin in
  let ymax_req := Py.int ymax in
  let crop_height := ymax_req - ymin_req in
  let crop_width := xmax_req - xmin_req in
  if (crop_height <? 3) || (crop_width <? 3) then Ok None else
  let xmin_valid := Z.max 0 xmin_req in
  let xmax_valid := Z.min h xmax_req in
  let ymin_valid := Z.max 0 ymin_req in
  let ymax_valid := Z.min v ymax_req in
  if (xmax_valid <=? xmin_valid) || (ymax_valid <=? ymin_valid) then Ok None else
  let cropped :=
    img_slice2 im (Py.Slice ymin_valid ymax_valid)
                  (Py.Slice xmin_valid xmax_valid) in
  let! mask := Np.zeros (A:=bool) crop_height crop_width in
  let! cropped :=
    (if (xmin_req <? 0) || (h <? xmax_req) || (ymin_req <? 0) || (v <? ymax_req)
     then
       let! padded := Np.zeros (A:=A) crop_height crop_width in
       let pad_ymin := Z.max 0 (- ymin_req) in
       let pad_xmin := Z.max 0 (- xmin_req) in
       let pad_ymax := pad_ymin + (ymax_valid - ymin_valid) in
       let pad_xmax := pad_xmin + (xmax_valid - xmin_valid) in
       let! padded := Np.set_slice2 padded (Py.Slice pad_ymin pad_ymax)
                        (Py.Slice pad_xmin pad_xmax) (img_data cropped) in
       let mask := Np.fill_slice2 mask Py.SliceAll Py.SliceAll true in
       let mask := Np.fill_slice2 mask (Py.Slice pad_ymin pad_ymax)
                     (Py.Slice pad_xmin pad_xmax) false in
       Ok (Masked padded mask)
     else Ok cropped) in
  let new_xc := (xc_px - inject_Z xmin_req)%Q in
  let new_yc := (yc_px - inject_Z ymin_req)%Q in
  Ok (Some (cropped, new_xc, new_yc)).

(** *** [crop_image_to_integration_rect]

    [d_minor] and [phi] may be [None]; arithmetic on [None] is a
    [TypeError]. *)
Definition crop_image_to_integration_rect (im : image A)
    (xc_px yc_px d_major : Q) (d_minor phi : option Q) (mask_diameters : Q)
    : result (option (image A * Q * Q)) :=
  match d_minor with
  | None => Ok (Some (im, xc_px, yc_px))
  | Some d_minor =>
      let rect_major := (mask_diameters * d_major)%Q in
      let rect_minor := (mask_diameters * d_minor)%Q in
      match phi with
      | None => Raise TypeError
      | Some phi =>
          let '(xp, yp) :=
            rotated_rect_arrays xc_px yc_px rect_major rect_minor phi in
          let! x_lo := Py.min xp in
          let! x_hi := Py.max xp in
          let! y_lo := Py.min yp in
          let! y_hi := Py.max yp in
          crop_image_to_rect im xc_px yc_px x_lo x_hi y_lo y_hi
      end
  end.

End pixels.

(** *** [create_test_image]

    The four argument checks, then the construction of the image
    ([beam_image]). *)
Definition gaussian_spot (h v : Z) (xc_px yc_px rx ry scale : Q) : ndarray Q :=
  NdArray
    ((fun y : Z =>
        (fun x : Z =>
           scale * np_exp (- (2 * (inject_Z x - xc_px) ^ 2) / rx ^ 2
                           - 2 * (inject_Z y - yc_px) ^ 2 / ry ^ 2))%Q
          <$> Py.range 0 h)
       <$> Py.range 0 v)
    (Z.to_nat h).

Definition beam_image (h v : Z) (xc_px yc_px d_major d_minor : Q)
    (phi : option Q) (noise : Q) (ntype : string) (max_value : Q)
    : result (ndarray Q) :=
  let rx := (d_major / 2)%Q in
  let ry := (d_minor / 2)%Q in
  let scale := (max_value - 3 * noise)%Q in
  let image0 := gaussian_spot h v xc_px yc_px rx ry scale in
  let! image1 := rotate_image image0 xc_px yc_px phi in
  let image1 :=
    if Py.lt 0 noise then add_noise image1 noise ntype max_value
    else image1 in
  if Py.lt max_value 256 then Ok (astype_uint 8 image1)
  else if Py.lt max_value 65536 then Ok (astype_uint 16 image1)
  else Ok image1.

Definition create_test_image (h v : pynum) (xc_px yc_px d_major d_minor : Q)
    (phi : option Q) (noise : Q) (ntype : string) (max_value : Q)
    : result (ndarray Q) :=
  if Py.lt max_value 0 || Py.le 65536 max_value then Raise ValueError else
  match h with
  | PyFloat _ => Raise ValueError
  | PyInt h =>
      if h <=? 0 then Raise ValueError else
      match v with
      | PyFloat _ => Raise ValueError
      | PyInt v =>
          if v <=? 0 then Raise ValueError else
          if match phi with
             | Some p => Py.lt two_point_one_pi (Qabs p)
             | None => false
             end
          then Raise ValueError
          else beam_image h v xc_px yc_px d_major d_minor phi noise ntype
                          max_value
      end
  end.

End image_tools.

(** ** Predicates of the specification *)

(** The argument is an [int] and positive. *)
Definition positive_int (x : pynum) : Prop := exists n, x = PyInt n /\ 0 < n.

(** The argument errors the specification lists for [create_test_image]. *)
Definition invalid_test_image_args (h v : pynum) (phi : option Q)
    (max_value : Q) : Prop :=
  ~ positive_int h
  \/ ~ positive_int v
  \/ (exists p, phi = Some p /\ (two_point_one_pi < Qabs p)%Q)
  \/ (max_value < 0)%Q
  \/ (65536 <= max_value)%Q.

(** The requested rectangle, its bounds truncated by [int(.)]. *)
Record rect : Set := Rect { r_xmin : Z; r_xmax : Z; r_ymin : Z; r_ymax : Z }.

Definition requested (xmin xmax ymin ymax : Q) : rect :=
  Rect (Py.int xmin) (Py.int xmax) (Py.int ymin) (Py.int ymax).

Definition rect_height (r : rect) : Z := r_ymax r - r_ymin r.
Definition rect_width (r : rect) : Z := r_xmax r - r_xmin r.

Definition img_height {A} (im : image A) : Z := Z.of_nat (img_shape im).1.
Definition img_width {A} (im : image A) : Z := Z.of_nat (img_shape im).2.

(** Pixel (x, y) lies in the image. *)
Definition in_image {A} (im : image A) (x y : Z) : Prop :=
  0 <= x < img_width im /\ 0 <= y < img_height im.

(** Pixel (x, y) lies in the rectangle (upper bounds excluded). *)
Definition in_rect (r : rect) (x y : Z) : Prop :=
  r_xmin r <= x < r_xmax r /\ r_ymin r <= y < r_ymax r.

(** The rectangle and the image share at least one pixel. *)
Definition overlaps {A} (im : image A) (r : rect) : Prop :=
  exists x y, in_rect r x y /\ in_image im x y.

(** The rectangle does not leave the image. *)
Definition inside {A} (im : image A) (r : rect) : Prop :=
  0 <= r_xmin r /\ r_xmax r <= img_width im
  /\ 0 <= r_ymin r /\ r_ymax r <= img_height im.

(** Row [row] and column [col] index a pixel of the image, without
    wrapping. *)
Definition index_in_image {A} (im : image A) (row col : Z) : Prop :=
  in_image im col row.

(** The floats [qx], [qy] are the integer column and row of an image pixel. *)
Definition pixel_of_image {A} (im : image A) (qx qy : Q) : Prop :=
  exists c r, qx = inject_Z c /\ qy = inject_Z r /\ in_image im c r.

(** ** A numerical library for closed examples

    The float [np.pi], and a library that is right at the half turn:
    [np.sin] and [np.cos] take the values of the floats [sin(-pi)] and
    [cos(-pi)], [np.degrees] gives 180, and a rotation by 180 degrees
    reverses rows and columns without changing the shape.  Its other
    members are simple stand-ins. *)
Definition float_pi : Q := 884279719003555 # 281474976710656.

Definition half_turn_lib : NumLib := {|
  np_sin := fun _ => (-4967757600021511 # 40564819207303340847894502572032)%Q;
  np_cos := fun _ => (-1)%Q;
  np_exp := fun _ => 1%Q;
  np_degrees := fun _ => 180%Q;
  np_hypot := fun x y => (Qabs x + Qabs y)%Q;
  ndimage_rotate := fun A _ a _ =>
    NdArray (reverse (reverse <$> nd_rows a)) (nd_ncols a);
  add_noise := fun a _ _ _ => a;
  astype_uint := fun _ a => a
|}.

(** A 4 x 4 image. *)
Definition image4 : ndarray Z :=
  NdArray [[1; 2; 3; 4]; [5; 6; 7; 8]; [9; 10; 11; 12]; [13; 14; 15; 16]] 4.

(** The same image with the pixel at row 1, column 2 masked. *)
Definition image4_masked : image Z :=
  Masked image4
    (NdArray [[false; false; false; false]; [false; false; true; false];
              [false; false; false; false]; [false; false; false; false]] 4).

(** ** Further predicates *)

(** Row [y] and column [x] index a cell of the array, without wrapping. *)
Definition in_array {A} (a : ndarray A) (y x : Z) : Prop :=
  0 <= y < Z.of_nat (Np.nrows a) /\ 0 <= x < Z.of_nat (nd_ncols a).

(** The 4 x 4 image turned by half a turn. *)
Definition image4_turned : ndarray Z :=
  NdArray [[16; 15; 14; 13]; [12; 11; 10; 9]; [8; 7; 6; 5]; [4; 3; 2; 1]] 4.

(** [v] is the value of the pixel at row [r], column [c] of the image, and
    that pixel is not masked. *)
Definition unmasked_pixel {A} (im : image A) (r c : Z) (v : A) : Prop :=
  index_in_image im r c
  /\ Np.get (img_data im) (Z.to_nat r) (Z.to_nat c) = Some v
  /\ match im with
     | Plain _ => True
     | Masked _ m => Np.get m (Z.to_nat r) (Z.to_nat c) = Some false
     end.

(** The [k]-th point of the walk from the normalised start (row [a],
    column [b]): the marching coordinate is [b + k], the other one has
    moved by [step] a whole number of times. *)
Definition line_point (steep : bool) (a b dr dc step k : Z) : Z * Z :=
  let o := a + step * ((k * dr + dc - 1 - dc `div` 2) `div` dc) in
  if steep then (b + k, o) else (o, b + k).

(** Two pixels that touch by a side or a corner, or coincide. *)
Definition adjacent (p q : Z * Z) : Prop :=
  Z.abs (q.1 - p.1) <= 1 /\ Z.abs (q.2 - p.2) <= 1.

(** ** More of [image_tools.py] *)

Section more_image_tools.
Context {lib : NumLib} {A : Type} {dt : Dtype A}.

(** *** [crop_image_to_rect2]: the crop without padding *)
Definition crop_image_to_rect2 (im : image A)
    (xc_px yc_px xmin xmax ymin ymax : Q) : image A * Q * Q :=
  let '(v, h) := img_shape im in
  let v := Z.of_nat v in
  let h := Z.of_nat h in
  let xmin := Z.max 0 (Py.int xmin) in
  let xmax := Z.min h (Py.int xmax) in
  let ymin := Z.max 0 (Py.int ymin) in
  let ymax := Z.min v (Py.int ymax) in
  let new_xc := (xc_px - inject_Z xmin)%Q in
  let new_yc := (yc_px - inject_Z ymin)%Q in
  (img_slice2 im (Py.Slice ymin ymax) (Py.Slice xmin xmax), new_xc, new_yc).

(** *** [_image_arrays], [major_axis_arrays], [minor_axis_arrays] *)
Definition image_arrays (im : image A) (xc_px yc_px line_length_px phi : Q)
    : result (list Q * list Q * list Q * list Q) :=
  let r_px := (line_length_px / 2)%Q in
  let rx_px := (r_px * np_cos phi)%Q in
  let ry_px := (- r_px * np_sin phi)%Q in
  let x_start := (xc_px - rx_px)%Q in
  let x_end := (xc_px + rx_px)%Q in
  let y_start := (yc_px - ry_px)%Q in
  let y_end := (yc_px + ry_px)%Q in
  values_along_line im x_start y_start x_end y_end.

Definition major_axis_arrays (im : image A)
    (xc_px yc_px line_length_px phi : Q) :=
  image_arrays im xc_px yc_px line_length_px phi.

Definition minor_axis_arrays (im : image A)
    (xc_px yc_px line_length_px phi : Q) :=
  image_arrays im xc_px yc_px line_length_px (phi + float_pi / 2)%Q.

End more_image_tools.

(** The rectangle after [crop_image_to_rect2] has clamped it to the
    image. *)
Definition clamped {A} (im : image A) (r : rect) : rect :=
  Rect (Z.max 0 (r_xmin r)) (Z.min (img_width im) (r_xmax r))
       (Z.max 0 (r_ymin r)) (Z.min (img_height im) (r_ymax r)).

(** ** Colour maps of [image_tools.py] and helpers of [display.py] *)

(** Python's [x / y] on floats.  [None] is the division by zero (a
    [ZeroDivisionError] for Python floats, a non-finite value for NumPy
    floats). *)
Definition py_truediv (x y : Q) : option Q :=
  if Qeq_bool y 0 then None else Some (x / y)%Q.

(** A Matplotlib colour map: a registered one, by name, or
    [LinearSegmentedColormap.from_list(name, stops, N)]. *)
Inductive colormap : Type :=
| NamedCmap (name : string)
| SegmentedCmap (name : string) (stops : list (Q * (Q * Q * Q))) (n : Z).

(** *** [create_cmap] *)
Definition create_cmap (vmin vmax band_percentage : Q) : option colormap :=
  match py_truediv vmin (vmin - vmax) with
  | None => None
  | Some r =>
      let delta := (band_percentage / 100)%Q in
      let colors :=
        [(0, 0, 6 # 10); (0, 0, 1); (1, 1, 1); (1, 0, 0); (6 # 10, 0, 0)]%Q in
      let positions := [0; (1 - delta) * r; r; (1 + delta) * r; 1]%Q in
      Some (SegmentedCmap "plus_minus" (zip positions colors) 255)
  end.

(** *** [create_plus_minus_cmap]

    [data] is the array, flattened; [np.max] and [np.min] of an empty array
    raise [ValueError].  [Ok None] is the division by zero of
    [create_cmap]. *)
Definition create_plus_minus_cmap (data : list Q) : result (option colormap) :=
  let! vmax := Py.max data in
  let! vmin := Py.min data in
  if Py.le 0 vmin && Py.le vmin vmax then Ok (Some (NamedCmap "Reds"))
  else if Py.le vmin vmax && Py.le vmax 0 then Ok (Some (NamedCmap "Blues"))
  else Ok (create_cmap vmin vmax 4).

(** *** [beam_ellipticity]; [np_sqrt] is [np.sqrt] *)
Definition beam_ellipticity (np_sqrt : Q -> Q) (d_major d_minor : Q)
    : option (Q * Q) :=
  match (if Py.lt d_minor d_major then py_truediv d_minor d_major
         else if Py.lt d_major d_minor then py_truediv d_major d_minor
         else Some 1%Q) with
  | None => None
  | Some ellipticity =>
      let d_circular := np_sqrt ((d_major ^ 2 + d_minor ^ 2) / 2)%Q in
      Some (ellipticity, d_circular)
  end.

(** *** [set_zero_to_lightgray]

    [colors] is [cmap(np.linspace(0, 1, 256))], the 256 RGBA rows of the
    named colour map; the result is the list given to [ListedColormap]. *)
Definition rgba : Type := Q * Q * Q * Q.

Definition lightgray : rgba := (827 # 1000, 827 # 1000, 827 # 1000, 1)%Q.

(** [rows[idx] = x]: a negative index wraps once, anything else out of
    range is an [IndexError]. *)
Definition set_row {A} (rows : list A) (idx : Z) (x : A) : result (list A) :=
  match Np.wrap_index (length rows) idx with
  | Some k => Ok (<[k := x]> rows)
  | None => Raise IndexError
  end.

Definition set_zero_to_lightgray (colors : list rgba) (min_val max_val : Q)
    : result (list rgba) :=
  let idx :=
    if Py.lt min_val 0 && Py.le 0 max_val
    then Py.int (256 * Qabs min_val / (max_val - min_val))
    else 0 in
  set_row colors idx lightgray.

(** 256 black rows, standing for a sampled colour map. *)
Definition black256 : list rgba := replicate 256 (0, 0, 0, 1)%Q.

(** *** [axes_arrays]

    The rows [x_rot1], [y_rot1] of the major axis and, unless [d_minor] is
    [None], the rows [x_rot2], [y_rot2] of the minor axis ([None] stands for
    the two rows of [None]). *)
Definition axes_arrays {lib : NumLib} (xc_px yc_px d_major : Q)
    (d_minor : option Q) (phi : Q)
    : (list Q * list Q) * option (list Q * list Q) :=
  let rx := (d_major / 2)%Q in
  let x := (fun a => a + xc_px)%Q <$> [- rx; rx]%Q in
  let y := (fun a => a + yc_px)%Q <$> [0; 0]%Q in
  let rot1 := zip_with (fun a b => rotate_points a b xc_px yc_px phi) x y in
  match d_minor with
  | None => ((rot1.*1, rot1.*2), None)
  | Some d_minor =>
      let ry := (d_minor / 2)%Q in
      let x := (fun a => a + xc_px)%Q <$> [0; 0]%Q in
      let y := (fun a => a + yc_px)%Q <$> [- ry; ry]%Q in
      let rot2 := zip_with (fun a b => rotate_points a b xc_px yc_px phi) x y in
      ((rot1.*1, rot1.*2), Some (rot2.*1, rot2.*2))
  end.

(** * Properties *)

(** ** Behaviour of [line] *)

Section line_loop.
Variables (steep : bool) (dr dc step : Z).

Lemma line_loop_lengths l st :
  let st' := foldl (line_body steep dr dc step) st l in
  length (ls_rr st') = (length (ls_rr st) + length l)%nat
  /\ length (ls_cc st') = (length (ls_cc st) + length l)%nat.
Proof.
  revert st. induction l as [|c l IH]; intros st; simpl.
  - lia.
  - destruct (IH (line_body steep dr dc step st c)) as [Hr Hc].
    rewrite Hr, Hc. unfold line_body.
    destruct (ls_error st - dr <? 0), steep; simpl;
      rewrite !length_app; simpl; lia.
Qed.

(** The marching coordinate is appended verbatim. *)
Lemma line_loop_march l st :
  let st' := foldl (line_body steep dr dc step) st l in
  (if steep then ls_rr st' else ls_cc st')
  = (if steep then ls_rr st else ls_cc st) ++ l.
Proof.
  revert st. induction l as [|c l IH]; intros st; simpl.
  - by rewrite app_nil_r.
  - rewrite IH. unfold line_body.
    destruct (ls_error st - dr <? 0), steep; simpl;
      by rewrite <- app_assoc.
Qed.
End line_loop.

Lemma line_normalise_ordered r0 c0 r1 c1 :
  forall steep a b c d,
    line_normalise r0 c0 r1 c1 = (steep, (a, b, c, d)) ->
    b <= d /\ d - b = Z.max (Z.abs (r1 - r0)) (Z.abs (c1 - c0)).
Proof.
  intros steep a b c d. unfold line_normalise.
  destruct (Z.abs (c1 - c0) <? Z.abs (r1 - r0)) eqn:Hs;
    [destruct (r1 <? r0) eqn:Hc | destruct (c1 <? c0) eqn:Hc];
    intros [= <- <- <- <- <-]; lia.
Qed.

Lemma line_normalise_swap r0 c0 r1 c1 :
  line_normalise r0 c0 r1 c1 = line_normalise r1 c1 r0 c0.
Proof.
  unfold line_normalise.
  replace (Z.abs (c0 - c1)) with (Z.abs (c1 - c0)) by lia.
  replace (Z.abs (r0 - r1)) with (Z.abs (r1 - r0)) by lia.
  destruct (Z.abs (c1 - c0) <? Z.abs (r1 - r0)) eqn:Hs.
  - destruct (r1 <? r0) eqn:H1, (r0 <? r1) eqn:H2; try reflexivity; lia.
  - destruct (c1 <? c0) eqn:H1, (c0 <? c1) eqn:H2; try reflexivity; try lia.
    assert (c0 = c1) by lia. assert (r0 = r1) by lia. by subst.
Qed.

Lemma line_unfold r0 c0 r1 c1 :
  exists steep a b c d st,
    line_normalise r0 c0 r1 c1 = (steep, (a, b, c, d))
    /\ st = foldl (line_body steep (Z.abs (c - a)) (d - b)
                     (if a <? c then 1 else -1))
                  (LineState a ((d - b) `div` 2) [] []) (Py.range b (d + 1))
    /\ line r0 c0 r1 c1 = (ls_rr st, ls_cc st).
Proof.
  unfold line.
  destruct (line_normalise r0 c0 r1 c1) as [steep [[[a b] c] d]].
  by repeat eexists.
Qed.

Lemma line_lengths r0 c0 r1 c1 :
  let n := Z.to_nat (Z.max (Z.abs (r1 - r0)) (Z.abs (c1 - c0)) + 1) in
  length (line r0 c0 r1 c1).1 = n /\ length (line r0 c0 r1 c1).2 = n.
Proof.
  destruct (line_unfold r0 c0 r1 c1) as (steep & a & b & c & d & st & E & -> & ->).
  apply line_normalise_ordered in E as [Hle Hd]. simpl.
  match goal with |- context [foldl (line_body _ ?dr ?dc ?step) ?s ?l] =>
    destruct (line_loop_lengths steep dr dc step l s) as [Hr Hc] end.
  rewrite Hr, Hc. unfold Py.range. rewrite length_seqZ. simpl. lia.
Qed.

Lemma line_same_length r0 c0 r1 c1 :
  length (line r0 c0 r1 c1).1 = length (line r0 c0 r1 c1).2.
Proof. destruct (line_lengths r0 c0 r1 c1) as [-> ->]. reflexivity. Qed.

Lemma line_nonempty r0 c0 r1 c1 : (0 < length (line r0 c0 r1 c1).1)%nat.
Proof. destruct (line_lengths r0 c0 r1 c1) as [-> _]. lia. Qed.

Lemma line_NoDup r0 c0 r1 c1 : NoDup (points (line r0 c0 r1 c1)).
Proof.
  pose proof (line_same_length r0 c0 r1 c1) as Hlen. unfold points.
  destruct (line_unfold r0 c0 r1 c1) as (steep & a & b & c & d & st & E & Hst & Hl).
  rewrite Hl in *. simpl in *.
  pose proof (line_loop_march steep (Z.abs (c - a)) (d - b)
                (if a <? c then 1 else -1) (Py.range b (d + 1))
                (LineState a ((d - b) `div` 2) [] [])) as Hm.
  simpl in Hm. rewrite <- Hst in Hm.
  assert (Hnd : NoDup (Py.range b (d + 1))) by apply NoDup_seqZ.
  destruct steep; simpl in Hm; rewrite <- Hm in Hnd.
  - apply (NoDup_fmap_1 fst). rewrite fst_zip by lia. exact Hnd.
  - apply (NoDup_fmap_1 snd). rewrite snd_zip by lia. exact Hnd.
Qed.

(** C3. For integer endpoints (r0, c0) and (r1, c1), [line] returns exactly
    max(|r1 - r0|, |c1 - c0|) + 1 coordinate pairs (both coordinate arrays
    have that length), and no (row, col) pair occurs twice. *)
Theorem line_count_and_distinct (r0 c0 r1 c1 : Z) :
  let n := Z.to_nat (Z.max (Z.abs (r1 - r0)) (Z.abs (c1 - c0)) + 1) in
  length (line r0 c0 r1 c1).1 = n
  /\ length (line r0 c0 r1 c1).2 = n
  /\ length (points (line r0 c0 r1 c1)) = n
  /\ NoDup (points (line r0 c0 r1 c1)).
Proof.
  intros n. destruct (line_lengths r0 c0 r1 c1) as [Hr Hc]. fold n in Hr, Hc.
  repeat split; try assumption.
  - unfold points. rewrite length_zip_with. lia.
  - apply line_NoDup.
Qed.

Lemma line_reverse r0 c0 r1 c1 : line r0 c0 r1 c1 = line r1 c1 r0 c0.
Proof. unfold line. by rewrite (line_normalise_swap r0 c0 r1 c1). Qed.

(** C4. The set of (row, col) pairs of [line] from (r0, c0) to (r1, c1) is
    the set of pairs of [line] from (r1, c1) to (r0, c0). *)
Theorem line_reversal_same_points (r0 c0 r1 c1 : Z) :
  forall p : Z * Z,
    p ∈ points (line r0 c0 r1 c1) <-> p ∈ points (line r1 c1 r0 c0).
Proof. intros p. by rewrite (line_reverse r0 c0 r1 c1). Qed.

(** ** Float comparisons *)

Lemma py_lt_iff (x y : Q) : Py.lt x y = true <-> (x < y)%Q.
Proof.
  unfold Py.lt. rewrite negb_true_iff, <- not_true_iff_false, Qle_bool_iff.
  split; [apply Qnot_le_lt | apply Qlt_not_le].
Qed.

Lemma py_le_iff (x y : Q) : Py.le x y = true <-> (x <= y)%Q.
Proof. apply Qle_bool_iff. Qed.

(** ** [crop_image_to_integration_rect] *)

(** C6. When [d_minor] is [None], [crop_image_to_integration_rect] returns
    the input image and the centre (xc, yc) as they were given, whatever the
    image, centre, [d_major], [phi] and [mask_diameters]. *)
Theorem crop_integration_rect_without_minor
    (lib : NumLib) (A : Type) (dt : Dtype A) (im : image A)
    (xc_px yc_px d_major : Q) (phi : option Q) (mask_diameters : Q) :
  crop_image_to_integration_rect im xc_px yc_px d_major None phi mask_diameters
  = Ok (Some (im, xc_px, yc_px)).
Proof. reflexivity. Qed.

(** ** [create_test_image] *)

Lemma two_point_one_pi_value :
  (65973445725385 # 10000000000000 < two_point_one_pi)%Q
  /\ (two_point_one_pi < 65973445725386 # 10000000000000)%Q.
Proof. split; reflexivity. Qed.

(** With valid arguments the checks fall through to the construction. *)
Lemma create_test_image_valid (lib : NumLib) h v xc_px yc_px d_major d_minor
    phi noise ntype max_value :
  ~ invalid_test_image_args (PyInt h) (PyInt v) phi max_value ->
  create_test_image (PyInt h) (PyInt v) xc_px yc_px d_major d_minor phi noise
                    ntype max_value
  = beam_image h v xc_px yc_px d_major d_minor phi noise ntype max_value.
Proof.
  intros Hv. unfold create_test_image, invalid_test_image_args in *.
  destruct (Py.lt max_value 0) eqn:E1.
  { apply py_lt_iff in E1. tauto. }
  destruct (Py.le 65536 max_value) eqn:E2.
  { apply py_le_iff in E2. tauto. }
  simpl. destruct (h <=? 0) eqn:E3.
  { exfalso. apply Hv. left. intros (n & [= <-] & Hn). lia. }
  destruct (v <=? 0) eqn:E4.
  { exfalso. apply Hv. right. left. intros (n & [= <-] & Hn). lia. }
  destruct phi as [p|]; [|reflexivity].
  destruct (Py.lt two_point_one_pi (Qabs p)) eqn:E5; [|reflexivity].
  apply py_lt_iff in E5. exfalso. apply Hv. do 2 right. left. eauto.
Qed.

(** C7. [create_test_image] raises [ValueError], whatever the numerical
    library and the remaining arguments, and so without building an image,
    whenever the number of columns or of rows is not a positive integer,
    [phi] is not [None] and |phi| > 2.1 pi, or [max_value] is negative
    or at least 2^16. *)
Theorem create_test_image_rejects
    (lib : NumLib) (h v : pynum) (xc_px yc_px d_major d_minor : Q)
    (phi : option Q) (noise : Q) (ntype : string) (max_value : Q) :
  invalid_test_image_args h v phi max_value ->
  create_test_image h v xc_px yc_px d_major d_minor phi noise ntype max_value
  = Raise ValueError.
Proof.
  intros Hbad. unfold create_test_image.
  destruct (Py.lt max_value 0) eqn:E1; [reflexivity|].
  destruct (Py.le 65536 max_value) eqn:E2; [reflexivity|]. simpl.
  assert (Hmax : ~ (max_value < 0)%Q /\ ~ (65536 <= max_value)%Q).
  { rewrite <- py_lt_iff, <- py_le_iff, E1, E2. split; discriminate. }
  destruct h as [h|x]; [|reflexivity].
  destruct (h <=? 0) eqn:E3; [reflexivity|].
  destruct v as [v|y]; [|reflexivity].
  destruct (v <=? 0) eqn:E4; [reflexivity|].
  destruct Hbad as [Hh|[Hv|[(p & -> & Hp)|[Hm|Hm]]]]; try tauto.
  - exfalso. apply Hh. exists h. split; [reflexivity | lia].
  - exfalso. apply Hv. exists v. split; [reflexivity | lia].
  - apply py_lt_iff in Hp. by rewrite Hp.
Qed.

(** ** Slices with bounds inside the sequence *)

Lemma adjust_in_range len i : 0 <= i <= len -> Py.adjust len i = i.
Proof. intros H. unfold Py.adjust. destruct (i <? 0) eqn:E; lia. Qed.

Lemma slice_start_in_range (len : nat) lo hi :
  0 <= lo <= Z.of_nat len ->
  Py.slice_start len (Py.Slice lo hi) = Z.to_nat lo.
Proof. intros H. simpl. by rewrite adjust_in_range. Qed.

Lemma slice_len_in_range (len : nat) lo hi :
  0 <= lo -> lo <= hi -> hi <= Z.of_nat len ->
  Py.slice_len len (Py.Slice lo hi) = Z.to_nat (hi - lo).
Proof. intros H1 H2 H3. simpl. by rewrite !adjust_in_range by lia. Qed.

Lemma in_slice_in_range (len : nat) lo hi (i : nat) :
  0 <= lo -> lo <= hi -> hi <= Z.of_nat len ->
  Py.in_slice len (Py.Slice lo hi) i
  = (lo <=? Z.of_nat i) && (Z.of_nat i <? hi).
Proof.
  intros H1 H2 H3. unfold Py.in_slice.
  rewrite slice_start_in_range, slice_len_in_range by lia.
  apply eq_true_iff_eq.
  rewrite !andb_true_iff, Nat.leb_le, Nat.ltb_lt, Z.leb_le, Z.ltb_lt. lia.
Qed.

Lemma in_slice_all (len i : nat) :
  (i < len)%nat -> Py.in_slice len Py.SliceAll i = true.
Proof.
  intros H. unfold Py.in_slice. simpl. by apply Nat.ltb_lt.
Qed.

Lemma length_get_slice {A} (l : list A) lo hi :
  0 <= lo -> lo <= hi -> hi <= Z.of_nat (length l) ->
  length (Py.get_slice (Py.Slice lo hi) l) = Z.to_nat (hi - lo).
Proof.
  intros H1 H2 H3. unfold Py.get_slice.
  rewrite slice_start_in_range, slice_len_in_range by lia.
  rewrite length_take, length_drop. lia.
Qed.

Lemma lookup_get_slice {A} (l : list A) lo hi (i : nat) :
  0 <= lo -> lo <= hi -> hi <= Z.of_nat (length l) ->
  Z.of_nat i < hi - lo ->
  Py.get_slice (Py.Slice lo hi) l !! i = l !! (Z.to_nat lo + i)%nat.
Proof.
  intros H1 H2 H3 Hi. unfold Py.get_slice.
  rewrite slice_start_in_range, slice_len_in_range by lia.
  rewrite lookup_take_lt by lia. apply lookup_drop.
Qed.

(** ** Reading arrays *)

Section slices.
Context {A : Type}.
Implicit Types (a src : ndarray A).

Lemma get_in_range a (i j : nat) :
  Np.wf a -> (i < Np.nrows a)%nat -> (j < nd_ncols a)%nat ->
  is_Some (Np.get a i j).
Proof.
  intros Hwf Hi Hj. unfold Np.get.
  destruct (lookup_lt_is_Some_2 (nd_rows a) i Hi) as [row Hrow].
  rewrite Hrow. simpl. apply lookup_lt_is_Some_2.
  rewrite (proj1 (Forall_lookup _ _) Hwf i row Hrow). exact Hj.
Qed.

Lemma full_ok h w (x : A) :
  0 <= h -> 0 <= w ->
  Np.full h w x
  = Ok (NdArray (replicate (Z.to_nat h) (replicate (Z.to_nat w) x))
                (Z.to_nat w)).
Proof.
  intros Hh Hw. unfold Np.full.
  destruct (h <? 0) eqn:E1; [lia|]. destruct (w <? 0) eqn:E2; [lia|]. done.
Qed.

Lemma get_replicate2 (n m : nat) (x : A) k (i j : nat) :
  (i < n)%nat -> (j < m)%nat ->
  Np.get (NdArray (replicate n (replicate m x)) k) i j = Some x.
Proof.
  intros Hi Hj. unfold Np.get. simpl.
  rewrite lookup_replicate_2 by done. simpl. by apply lookup_replicate_2.
Qed.

Lemma wf_replicate2 (n m : nat) (x : A) :
  Np.wf (NdArray (replicate n (replicate m x)) m).
Proof.
  unfold Np.wf. simpl. apply Forall_replicate, length_replicate.
Qed.

Lemma shape_slice2 a rlo rhi clo chi :
  0 <= rlo -> rlo <= rhi -> rhi <= Z.of_nat (Np.nrows a) ->
  0 <= clo -> clo <= chi -> chi <= Z.of_nat (nd_ncols a) ->
  Np.shape (Np.slice2 a (Py.Slice rlo rhi) (Py.Slice clo chi))
  = (Z.to_nat (rhi - rlo), Z.to_nat (chi - clo)).
Proof.
  intros. unfold Np.shape, Np.nrows, Np.slice2. cbn [nd_rows nd_ncols].
  rewrite length_fmap, length_get_slice, slice_len_in_range by done.
  reflexivity.
Qed.

Lemma wf_slice2 a rs clo chi :
  Np.wf a -> 0 <= clo -> clo <= chi -> chi <= Z.of_nat (nd_ncols a) ->
  Np.wf (Np.slice2 a rs (Py.Slice clo chi)).
Proof.
  intros Hwf H1 H2 H3. unfold Np.wf, Np.slice2. cbn [nd_rows nd_ncols].
  apply Forall_fmap. unfold Py.get_slice at 1.
  apply Forall_take, Forall_drop.
  eapply Forall_impl; [exact Hwf|]. intros row Hlen. simpl in Hlen.
  change (length (Py.get_slice (Py.Slice clo chi) row)
          = Py.slice_len (nd_ncols a) (Py.Slice clo chi)).
  rewrite length_get_slice by lia.
  by rewrite slice_len_in_range by lia.
Qed.

Lemma get_slice2 a rlo rhi clo chi (i j : nat) :
  Np.wf a ->
  0 <= rlo -> rlo <= rhi -> rhi <= Z.of_nat (Np.nrows a) ->
  0 <= clo -> clo <= chi -> chi <= Z.of_nat (nd_ncols a) ->
  Z.of_nat i < rhi - rlo -> Z.of_nat j < chi - clo ->
  Np.get (Np.slice2 a (Py.Slice rlo rhi) (Py.Slice clo chi)) i j
  = Np.get a (Z.to_nat rlo + i) (Z.to_nat clo + j).
Proof.
  intros Hwf H1 H2 H3 H4 H5 H6 Hi Hj. unfold Np.get, Np.slice2. cbn [nd_rows nd_ncols].
  rewrite list_lookup_fmap, lookup_get_slice by done.
  destruct (nd_rows a !! (Z.to_nat rlo + i)%nat) as [row|] eqn:Hrow; [|done].
  simpl. apply lookup_get_slice; try lia.
  rewrite (proj1 (Forall_lookup _ _) Hwf _ row Hrow). lia.
Qed.

End slices.

(** ** Writing arrays *)

Section assign.
Context {A : Type}.
Implicit Types (a src : ndarray A).

Lemma bidx_lt (n i : nat) : (i < n)%nat -> Np.bidx n i = i.
Proof.
  intros H. unfold Np.bidx. destruct (n =? 1)%nat eqn:E; [|done].
  apply Nat.eqb_eq in E. lia.
Qed.

Lemma in_slice_bounds (len : nat) s (i : nat) :
  Py.in_slice len s i = true ->
  (Py.slice_start len s <= i < Py.slice_start len s + Py.slice_len len s)%nat.
Proof.
  unfold Py.in_slice. rewrite andb_true_iff, Nat.leb_le, Nat.ltb_lt. lia.
Qed.

Lemma wf_rewrite_rows a rs f :
  (forall i row, length (f i row) = length row) ->
  Np.wf a -> Np.wf (NdArray (Np.rewrite_rows a rs f) (nd_ncols a)).
Proof.
  intros Hf Hwf. unfold Np.wf, Np.rewrite_rows. cbn [nd_rows nd_ncols].
  apply Forall_lookup. intros i row Hrow.
  rewrite list_lookup_imap in Hrow.
  destruct (nd_rows a !! i) as [row0|] eqn:E; [|done].
  simpl in Hrow. injection Hrow as <-.
  pose proof (proj1 (Forall_lookup _ _) Hwf i row0 E) as Hlen. simpl in Hlen.
  destruct (Py.in_slice _ rs i); by rewrite ?Hf.
Qed.

Lemma get_rewrite_rows a rs f (i j : nat) :
  Np.get (NdArray (Np.rewrite_rows a rs f) (nd_ncols a)) i j
  = row ← nd_rows a !! i;
    (if Py.in_slice (Np.nrows a) rs i then f i row else row) !! j.
Proof.
  unfold Np.get, Np.rewrite_rows. cbn [nd_rows]. rewrite list_lookup_imap.
  by destruct (nd_rows a !! i).
Qed.

Lemma set_slice2_same_shape a rs cs src :
  Np.nrows src = Py.slice_len (Np.nrows a) rs ->
  nd_ncols src = Py.slice_len (nd_ncols a) cs ->
  exists a',
    Np.set_slice2 a rs cs src = Ok a'
    /\ Np.shape a' = Np.shape a
    /\ (Np.wf a -> Np.wf a')
    /\ forall i j : nat,
         Np.wf a -> Np.wf src ->
         (i < Np.nrows a)%nat -> (j < nd_ncols a)%nat ->
         Np.get a' i j
         = if Py.in_slice (Np.nrows a) rs i && Py.in_slice (nd_ncols a) cs j
           then Np.get src (i - Py.slice_start (Np.nrows a) rs)
                           (j - Py.slice_start (nd_ncols a) cs)
           else Np.get a i j.
Proof.
  intros Hr Hc. unfold Np.set_slice2, Np.broadcasts.
  rewrite Hr, Hc, !Nat.eqb_refl. simpl. rewrite <- Hr, <- Hc.
  eexists. split; [reflexivity|].
  split; [|split].
  - unfold Np.shape, Np.nrows, Np.rewrite_rows. cbn [nd_rows nd_ncols].
    by rewrite length_imap.
  - apply wf_rewrite_rows. intros. apply length_imap.
  - intros i j Hwf Hwfs Hi Hj. rewrite get_rewrite_rows.
    destruct (lookup_lt_is_Some_2 (nd_rows a) i Hi) as [row Hrow].
    pose proof (proj1 (Forall_lookup _ _) Hwf i row Hrow) as Hlen.
    simpl in Hlen.
    assert (Hget : Np.get a i j = row !! j).
    { unfold Np.get. by rewrite Hrow. }
    rewrite Hrow. simpl.
    destruct (Py.in_slice (Np.nrows a) rs i) eqn:Ei; simpl; [|by rewrite Hget].
    rewrite list_lookup_imap.
    destruct (lookup_lt_is_Some_2 row j) as [x Hx]; [lia|].
    rewrite Hx. simpl.
    destruct (Py.in_slice (nd_ncols a) cs j) eqn:Ej; [|by rewrite Hget, Hx].
    apply in_slice_bounds in Ei, Ej.
    rewrite !bidx_lt by lia.
    destruct (get_in_range src (i - Py.slice_start (Np.nrows a) rs)
                (j - Py.slice_start (nd_ncols a) cs)) as [y Hy];
      [done | lia | lia |].
    by rewrite Hy.
Qed.

Lemma shape_fill_slice2 a rs cs x :
  Np.shape (Np.fill_slice2 a rs cs x) = Np.shape a.
Proof.
  unfold Np.shape, Np.nrows, Np.fill_slice2, Np.rewrite_rows.
  cbn [nd_rows nd_ncols]. by rewrite length_imap.
Qed.

Lemma nrows_fill_slice2 a rs cs x :
  Np.nrows (Np.fill_slice2 a rs cs x) = Np.nrows a.
Proof. exact (f_equal fst (shape_fill_slice2 a rs cs x)). Qed.

Lemma wf_fill_slice2 a rs cs x : Np.wf a -> Np.wf (Np.fill_slice2 a rs cs x).
Proof.
  intros Hwf. apply wf_rewrite_rows; [|done]. intros. apply length_imap.
Qed.

Lemma get_fill_slice2 a rs cs x (i j : nat) :
  Np.wf a -> (i < Np.nrows a)%nat -> (j < nd_ncols a)%nat ->
  Np.get (Np.fill_slice2 a rs cs x) i j
  = if Py.in_slice (Np.nrows a) rs i && Py.in_slice (nd_ncols a) cs j
    then Some x else Np.get a i j.
Proof.
  intros Hwf Hi Hj.
  unfold Np.fill_slice2. rewrite get_rewrite_rows.
  destruct (lookup_lt_is_Some_2 (nd_rows a) i Hi) as [row Hrow].
  pose proof (proj1 (Forall_lookup _ _) Hwf i row Hrow) as Hlen.
  simpl in Hlen.
  assert (Hget : Np.get a i j = row !! j).
  { unfold Np.get. by rewrite Hrow. }
  rewrite Hrow. simpl.
  destruct (Py.in_slice (Np.nrows a) rs i) eqn:Ei; simpl; [|by rewrite Hget].
  rewrite list_lookup_imap.
  destruct (lookup_lt_is_Some_2 row j) as [y Hy]; [lia|].
  rewrite Hy. simpl.
  destruct (Py.in_slice (nd_ncols a) cs j); [done | by rewrite Hget, Hy].
Qed.

End assign.

(** ** [crop_image_to_rect] *)

Section crop.
Context {A : Type} {dt : Dtype A}.
Variables (im : image A) (xc_px yc_px xmin xmax ymin ymax : Q).

Local Abbreviation r := (requested xmin xmax ymin ymax).
Local Abbreviation crop := (crop_image_to_rect im xc_px yc_px xmin xmax ymin ymax).

Lemma overlaps_valid_region :
  overlaps im r <->
  Z.max 0 (r_xmin r) < Z.min (img_width im) (r_xmax r)
  /\ Z.max 0 (r_ymin r) < Z.min (img_height im) (r_ymax r).
Proof.
  unfold overlaps, in_rect, in_image. split.
  - intros (x & y & H1 & H2). lia.
  - intros [Hx Hy].
    exists (Z.max 0 (r_xmin r)), (Z.max 0 (r_ymin r)). lia.
Qed.

(** The two early returns of the function, then the rest. *)
Ltac crop_guards :=
  unfold crop_image_to_rect; cbn [img_shape Np.shape];
  destruct (Py.int ymax - Py.int ymin <? 3) eqn:Esmall_h;
    [try done; try lia|];
  destruct (Py.int xmax - Py.int xmin <? 3) eqn:Esmall_w;
    [try done; try lia|];
  cbn [orb];
  destruct (Z.min (Z.of_nat (nd_ncols (img_data im))) (Py.int xmax)
            <=? Z.max 0 (Py.int xmin)) eqn:Eno_x;
    [try done; try lia|];
  destruct (Z.min (Z.of_nat (Np.nrows (img_data im))) (Py.int ymax)
            <=? Z.max 0 (Py.int ymin)) eqn:Eno_y;
    [try done; try lia|];
  cbn [orb].

Lemma crop_too_small :
  rect_height r < 3 \/ rect_width r < 3 -> crop = Ok None.
Proof.
  unfold rect_height, rect_width. cbn [requested r_xmin r_xmax r_ymin r_ymax].
  intros H. crop_guards. lia.
Qed.

Lemma crop_no_overlap : ~ overlaps im r -> crop = Ok None.
Proof.
  rewrite overlaps_valid_region.
  unfold img_width, img_height.
  cbn [img_shape Np.shape fst snd requested r_xmin r_xmax r_ymin r_ymax].
  intros H. crop_guards. lia.
Qed.

Lemma crop_inside :
  3 <= rect_height r -> 3 <= rect_width r -> inside im r ->
  crop = Ok (Some (img_slice2 im (Py.Slice (r_ymin r) (r_ymax r))
                                 (Py.Slice (r_xmin r) (r_xmax r)),
                   (xc_px - inject_Z (r_xmin r))%Q,
                   (yc_px - inject_Z (r_ymin r))%Q)).
Proof.
  unfold rect_height, rect_width, inside, img_width, img_height.
  cbn [img_shape Np.shape fst snd requested r_xmin r_xmax r_ymin r_ymax].
  intros Hh Hw (Hx0 & Hx1 & Hy0 & Hy1). crop_guards.
  unfold Np.zeros. rewrite full_ok by lia. cbn [bind].
  destruct (Py.int xmin <? 0) eqn:E1; [lia|].
  destruct (Z.of_nat (nd_ncols (img_data im)) <? Py.int xmax) eqn:E2; [lia|].
  destruct (Py.int ymin <? 0) eqn:E3; [lia|].
  destruct (Z.of_nat (Np.nrows (img_data im)) <? Py.int ymax) eqn:E4; [lia|].
  cbn [orb bind].
  rewrite (Z.max_r 0 (Py.int xmin)), (Z.max_r 0 (Py.int ymin)) by lia.
  rewrite (Z.min_r _ (Py.int xmax)), (Z.min_r _ (Py.int ymax)) by lia.
  reflexivity.
Qed.

Lemma img_data_slice2 (im' : image A) rs cs :
  img_data (img_slice2 im' rs cs) = Np.slice2 (img_data im') rs cs.
Proof. by destruct im'. Qed.

Lemma img_wf_data (im' : image A) : img_wf im' -> Np.wf (img_data im').
Proof. destruct im'; simpl; tauto. Qed.

Lemma crop_beyond :
  3 <= rect_height r -> 3 <= rect_width r -> overlaps im r -> ~ inside im r ->
  exists data mask,
    crop = Ok (Some (Masked data mask,
                     (xc_px - inject_Z (r_xmin r))%Q,
                     (yc_px - inject_Z (r_ymin r))%Q))
    /\ Np.shape data = (Z.to_nat (rect_height r), Z.to_nat (rect_width r))
    /\ Np.shape mask = (Z.to_nat (rect_height r), Z.to_nat (rect_width r))
    /\ (img_wf im ->
        Np.wf data /\ Np.wf mask
        /\ forall i j : nat,
             Z.of_nat i < rect_height r -> Z.of_nat j < rect_width r ->
             let x := r_xmin r + Z.of_nat j in
             let y := r_ymin r + Z.of_nat i in
             (in_image im x y ->
                is_Some (Np.get data i j)
                /\ Np.get data i j
                   = Np.get (img_data im) (Z.to_nat y) (Z.to_nat x)
                /\ Np.get mask i j = Some false)
             /\ (~ in_image im x y ->
                   Np.get data i j = Some dzero
                   /\ Np.get mask i j = Some true)).
Proof.
  rewrite overlaps_valid_region.
  unfold rect_height, rect_width, inside, in_image, img_width, img_height.
  cbn [img_shape Np.shape fst snd requested r_xmin r_xmax r_ymin r_ymax].
  intros Hh Hw [Hox Hoy] Hout. crop_guards.
  set (x0 := Py.int xmin) in *. set (x1 := Py.int xmax) in *.
  set (y0 := Py.int ymin) in *. set (y1 := Py.int ymax) in *.
  set (a := img_data im) in *.
  set (h := Z.of_nat (nd_ncols a)) in *. set (v := Z.of_nat (Np.nrows a)) in *.
  unfold Np.zeros. rewrite !full_ok by lia. cbn [bind].
  assert (Hc : (x0 <? 0) || (h <? x1) || (y0 <? 0) || (v <? y1) = true).
  { rewrite !orb_true_iff, !Z.ltb_lt. lia. }
  rewrite Hc. cbn [bind]. rewrite img_data_slice2. fold a.
  set (padded0 := NdArray (replicate (Z.to_nat (y1 - y0))
                             (replicate (Z.to_nat (x1 - x0)) dzero))
                          (Z.to_nat (x1 - x0))).
  set (mask0 := NdArray (replicate (Z.to_nat (y1 - y0))
                           (replicate (Z.to_nat (x1 - x0)) (dzero : bool)))
                        (Z.to_nat (x1 - x0))).
  set (src := Np.slice2 a (Py.Slice (Z.max 0 y0) (Z.min v y1))
                          (Py.Slice (Z.max 0 x0) (Z.min h x1))).
  set (rs := Py.Slice (Z.max 0 (- y0))
                      (Z.max 0 (- y0) + (Z.min v y1 - Z.max 0 y0))).
  set (cs := Py.Slice (Z.max 0 (- x0))
                      (Z.max 0 (- x0) + (Z.min h x1 - Z.max 0 x0))).
  assert (Hnr0 : Np.nrows padded0 = Z.to_nat (y1 - y0)).
  { unfold Np.nrows, padded0. cbn [nd_rows]. apply length_replicate. }
  assert (Hnc0 : nd_ncols padded0 = Z.to_nat (x1 - x0)) by done.
  assert (Hmr0 : Np.nrows mask0 = Z.to_nat (y1 - y0)).
  { unfold Np.nrows, mask0. cbn [nd_rows]. apply length_replicate. }
  assert (Hmc0 : nd_ncols mask0 = Z.to_nat (x1 - x0)) by done.
  assert (Hsrc : Np.shape src
                 = (Z.to_nat (Z.min v y1 - Z.max 0 y0),
                    Z.to_nat (Z.min h x1 - Z.max 0 x0))).
  { apply shape_slice2; fold v h; lia. }
  pose proof (f_equal fst Hsrc) as Hsr. pose proof (f_equal snd Hsrc) as Hsc.
  cbn [fst snd Np.shape] in Hsr, Hsc. clear Hsrc.
  destruct (set_slice2_same_shape padded0 rs cs src)
    as (data & Hset & Hshape & Hwfd & Hget).
  { rewrite Hsr, Hnr0. unfold rs. rewrite slice_len_in_range by lia.
    f_equal. lia. }
  { rewrite Hsc, Hnc0. unfold cs. rewrite slice_len_in_range by lia.
    f_equal. lia. }
  rewrite Hset. cbn [bind].
  eexists data, _. split; [reflexivity|].
  split; [by rewrite Hshape; unfold Np.shape; rewrite Hnr0, Hnc0|].
  split.
  { rewrite !shape_fill_slice2. unfold Np.shape. by rewrite Hmr0, Hmc0. }
  intros Hwf. apply img_wf_data in Hwf. fold a in Hwf.
  assert (Hwfp : Np.wf padded0) by apply wf_replicate2.
  assert (Hwfm : Np.wf mask0) by apply wf_replicate2.
  assert (Hwfs : Np.wf src) by (apply wf_slice2; fold h; [done|lia..]).
  split; [by apply Hwfd|]. split; [by apply wf_fill_slice2, wf_fill_slice2|].
  intros i j Hi Hj.
  assert (Hrs : Py.in_slice (Np.nrows padded0) rs i
                = (0 <=? y0 + Z.of_nat i) && (y0 + Z.of_nat i <? v)).
  { unfold rs. rewrite in_slice_in_range by lia. apply eq_true_iff_eq.
    rewrite !andb_true_iff, !Z.leb_le, !Z.ltb_lt. lia. }
  assert (Hcs : Py.in_slice (nd_ncols padded0) cs j
                = (0 <=? x0 + Z.of_nat j) && (x0 + Z.of_nat j <? h)).
  { unfold cs. rewrite in_slice_in_range by lia. apply eq_true_iff_eq.
    rewrite !andb_true_iff, !Z.leb_le, !Z.ltb_lt. lia. }
  rewrite (Hget i j) by (done || lia).
  rewrite get_fill_slice2;
    [|by apply wf_fill_slice2
     |rewrite nrows_fill_slice2; lia
     |cbn [Np.fill_slice2 nd_ncols]; lia].
  rewrite get_fill_slice2 by (done || lia).
  rewrite !in_slice_all by lia. cbn [andb].
  replace (Np.nrows (Np.fill_slice2 mask0 Py.SliceAll Py.SliceAll true))
    with (Np.nrows padded0)
    by (rewrite nrows_fill_slice2; lia).
  replace (nd_ncols (Np.fill_slice2 mask0 Py.SliceAll Py.SliceAll true))
    with (nd_ncols padded0) by done.
  rewrite Hrs, Hcs.
  split.
  - intros [[Hx0 Hx1] [Hy0 Hy1]].
    rewrite (proj2 (Z.leb_le _ _) Hy0), (proj2 (Z.ltb_lt _ _) Hy1).
    rewrite (proj2 (Z.leb_le _ _) Hx0), (proj2 (Z.ltb_lt _ _) Hx1).
    cbn [andb].
    assert (Hcell :
      Np.get src (i - Py.slice_start (Np.nrows padded0) rs)
                 (j - Py.slice_start (nd_ncols padded0) cs)
      = Np.get a (Z.to_nat (y0 + Z.of_nat i)) (Z.to_nat (x0 + Z.of_nat j))).
    { unfold rs, cs. rewrite !slice_start_in_range by lia.
      unfold src. rewrite get_slice2 by (done || fold v h; lia).
      f_equal; lia. }
    rewrite Hcell. split; [|done].
    apply get_in_range; [done | fold v; lia | fold h; lia].
  - intros Hnot.
    assert (Hb : (0 <=? y0 + Z.of_nat i) && (y0 + Z.of_nat i <? v)
                 && ((0 <=? x0 + Z.of_nat j) && (x0 + Z.of_nat j <? h))
                 = false).
    { apply not_true_iff_false.
      rewrite !andb_true_iff, !Z.leb_le, !Z.ltb_lt. lia. }
    rewrite Hb. split; [|done].
    apply get_replicate2; lia.
Qed.

Lemma inside_dec : inside im r \/ ~ inside im r.
Proof. unfold inside. lia. Qed.

Lemma overlaps_dec : overlaps im r \/ ~ overlaps im r.
Proof. rewrite overlaps_valid_region. lia. Qed.

Lemma crop_some :
  3 <= rect_height r -> 3 <= rect_width r -> overlaps im r ->
  exists c, crop = Ok (Some (c, (xc_px - inject_Z (r_xmin r))%Q,
                             (yc_px - inject_Z (r_ymin r))%Q)).
Proof.
  intros Hh Hw Ho. destruct inside_dec as [Hin|Hout].
  - eexists. by apply crop_inside.
  - destruct (crop_beyond Hh Hw Ho Hout) as (data & mask & -> & _). eauto.
Qed.

(** C1. [crop_image_to_rect] returns the sentinel exactly when the requested
    rectangle, with its bounds truncated to integers, is less than 3 pixels
    high or less than 3 pixels wide or shares no pixel with the image; and
    it returns a cropped image exactly when the request is at least 3x3 and
    overlaps the image. *)
Theorem crop_sentinel_iff :
  (crop = Ok None
   <-> rect_height r < 3 \/ rect_width r < 3 \/ ~ overlaps im r)
  /\ ((exists c new_xc new_yc, crop = Ok (Some (c, new_xc, new_yc)))
      <-> 3 <= rect_height r /\ 3 <= rect_width r /\ overlaps im r).
Proof.
  destruct (Z.lt_ge_cases (rect_height r) 3) as [Hh|Hh].
  { rewrite crop_too_small by auto. split; split; try tauto; try lia.
    intros (c & nx & ny & [=]). }
  destruct (Z.lt_ge_cases (rect_width r) 3) as [Hw|Hw].
  { rewrite crop_too_small by auto. split; split; try tauto; try lia.
    intros (c & nx & ny & [=]). }
  destruct overlaps_dec as [Ho|Ho].
  - destruct (crop_some Hh Hw Ho) as [c ->]. split; split.
    + intros [=].
    + intros [?|[?|?]]; [lia | lia | tauto].
    + tauto.
    + eauto.
  - rewrite crop_no_overlap by done. split; split; try tauto.
    intros (c & nx & ny & [=]).
Qed.

(** C2. For a request (bounds truncated to integers) at least 3x3 that
    overlaps the image and leaves it, [crop_image_to_rect] returns a masked
    array of exactly the requested height and width; the centre becomes
    (xc - xmin, yc - ymin); and, for an image with rectangular data, a cell
    whose pixel lies in the image holds that pixel and is unmasked, while
    every other cell holds zero and is masked. *)
Theorem crop_straddling_padded_and_masked :
  3 <= rect_height r -> 3 <= rect_width r -> overlaps im r -> ~ inside im r ->
  exists data mask,
    crop = Ok (Some (Masked data mask,
                     (xc_px - inject_Z (r_xmin r))%Q,
                     (yc_px - inject_Z (r_ymin r))%Q))
    /\ Np.shape data = (Z.to_nat (rect_height r), Z.to_nat (rect_width r))
    /\ Np.shape mask = (Z.to_nat (rect_height r), Z.to_nat (rect_width r))
    /\ (img_wf im ->
        Np.wf data /\ Np.wf mask
        /\ forall i j : nat,
             Z.of_nat i < rect_height r -> Z.of_nat j < rect_width r ->
             let x := r_xmin r + Z.of_nat j in
             let y := r_ymin r + Z.of_nat i in
             (in_image im x y ->
                is_Some (Np.get data i j)
                /\ Np.get data i j
                   = Np.get (img_data im) (Z.to_nat y) (Z.to_nat x)
                /\ Np.get mask i j = Some false)
             /\ (~ in_image im x y ->
                   Np.get data i j = Some dzero
                   /\ Np.get mask i j = Some true)).
Proof. exact crop_beyond. Qed.

(** C10. For a request (bounds truncated to integers) at least 3x3 that
    lies inside the image, [crop_image_to_rect] returns the slice
    image[ymin:ymax, xmin:xmax] itself: a plain image stays plain (no mask
    is attached), the result has the requested shape, and each of its cells
    is the image pixel at the same place. *)
Theorem crop_inside_is_subimage :
  img_wf im -> 3 <= rect_height r -> 3 <= rect_width r -> inside im r ->
  exists sub,
    crop = Ok (Some (sub, (xc_px - inject_Z (r_xmin r))%Q,
                     (yc_px - inject_Z (r_ymin r))%Q))
    /\ sub = img_slice2 im (Py.Slice (r_ymin r) (r_ymax r))
                           (Py.Slice (r_xmin r) (r_xmax r))
    /\ is_plain sub = is_plain im
    /\ img_shape sub = (Z.to_nat (rect_height r), Z.to_nat (rect_width r))
    /\ forall i j : nat,
         Z.of_nat i < rect_height r -> Z.of_nat j < rect_width r ->
         is_Some (Np.get (img_data sub) i j)
         /\ Np.get (img_data sub) i j
            = Np.get (img_data im) (Z.to_nat (r_ymin r + Z.of_nat i))
                                   (Z.to_nat (r_xmin r + Z.of_nat j)).
Proof.
  intros Hwf Hh Hw Hin. eexists. split; [by apply crop_inside|].
  split; [reflexivity|]. split; [by destruct im|].
  apply img_wf_data in Hwf.
  unfold img_shape. rewrite img_data_slice2.
  unfold rect_height, rect_width, inside, img_width, img_height in *.
  cbn [img_shape Np.shape fst snd] in Hin.
  destruct Hin as (Hx0 & Hx1 & Hy0 & Hy1).
  split; [by apply shape_slice2; lia|].
  intros i j Hi Hj.
  rewrite get_slice2 by (done || lia).
  replace (Z.to_nat (r_ymin r + Z.of_nat i))
    with (Z.to_nat (r_ymin r) + i)%nat by lia.
  replace (Z.to_nat (r_xmin r + Z.of_nat j))
    with (Z.to_nat (r_xmin r) + j)%nat by lia.
  split; [|done]. apply get_in_range; [done | lia | lia].
Qed.

End crop.

(** ** Boolean-mask and integer-array indexing *)

Lemma compress_ok {A} (m : list bool) (v : list A) :
  length m = length v -> Np.compress m v = Ok (Np.select m v).
Proof. intros H. unfold Np.compress. by rewrite H, Nat.eqb_refl. Qed.

Lemma length_select {A B} (m : list bool) (v : list A) (w : list B) :
  length m = length v -> length m = length w ->
  length (Np.select m v) = length (Np.select m w).
Proof.
  revert v w. induction m as [|b m IH]; intros [|x v] [|y w]; simpl; try done.
  intros [= Hv] [= Hw]. destruct b; simpl; auto.
Qed.

Lemma Forall_select {A} (P : A -> Prop) (m : list bool) (v : list A) :
  Forall P v -> Forall P (Np.select m v).
Proof.
  intros Hv. revert m. induction Hv as [|x v Hx Hv IH]; intros [|b m]; simpl;
    try constructor.
  destruct b; [constructor|]; auto.
Qed.

Lemma select_fmap {A B} (f : A -> B) (m : list bool) (v : list A) :
  Np.select m (f <$> v) = f <$> Np.select m v.
Proof.
  revert v. induction m as [|b m IH]; intros [|x v]; simpl; try done.
  destruct b; simpl; by rewrite IH.
Qed.

(** Filtering two arrays by a mask computed from both keeps only the pairs
    the mask accepts. *)
Lemma select_zip_with_both {A B} (f : A -> B -> bool) (l : list A)
    (k : list B) :
  length l = length k ->
  Forall2 (fun x y => f x y = true)
          (Np.select (zip_with f l k) l) (Np.select (zip_with f l k) k).
Proof.
  revert k. induction l as [|x l IH]; intros [|y k]; simpl; try done.
  intros [= H]. destruct (f x y) eqn:E; [constructor|]; auto.
Qed.

Lemma select_zip_with_none {A B C} (f : A -> B -> bool) (l : list A)
    (k : list B) (v : list C) :
  Forall (fun p => f p.1 p.2 = false) (zip l k) ->
  Np.select (zip_with f l k) v = [].
Proof.
  revert k v. induction l as [|x l IH]; intros [|y k] [|z v]; simpl; try done.
  intros H. apply Forall_cons in H as [Hxy H]. simpl in Hxy. rewrite Hxy. auto.
Qed.

Lemma wrap_index_in_range (len : nat) (i : Z) :
  0 <= i < Z.of_nat len -> Np.wrap_index len i = Some (Z.to_nat i).
Proof.
  intros H. unfold Np.wrap_index.
  destruct (0 <=? i) eqn:E1; [|lia]. destruct (i <? Z.of_nat len) eqn:E2; [|lia].
  done.
Qed.

Lemma item_in_range {A} (a : ndarray A) (r c : Z) :
  Np.wf a -> 0 <= r < Z.of_nat (Np.nrows a) -> 0 <= c < Z.of_nat (nd_ncols a) ->
  exists x, Np.item a r c = Ok x.
Proof.
  intros Hwf Hr Hc. unfold Np.item.
  rewrite !wrap_index_in_range by done.
  destruct (get_in_range a (Z.to_nat r) (Z.to_nat c)) as [x ->];
    [done | lia | lia |]. eauto.
Qed.

Lemma take_points_in_range {A} (a : ndarray A) (rr cc : list Z) :
  Np.wf a ->
  Forall2 (fun r c => 0 <= r < Z.of_nat (Np.nrows a)
                      /\ 0 <= c < Z.of_nat (nd_ncols a)) rr cc ->
  exists z, Np.take_points a rr cc = Ok z /\ length z = length rr.
Proof.
  intros Hwf H. unfold Np.take_points.
  rewrite (Forall2_length _ _ _ H), Nat.eqb_refl.
  induction H as [|r c rr cc [Hr Hc] H IH]; simpl.
  - by exists [].
  - destruct IH as (z & -> & Hlen).
    destruct (item_in_range a r c Hwf Hr Hc) as [x ->]. simpl.
    exists (x :: z). simpl. by rewrite Hlen.
Qed.

Lemma img_take_points_in_range {A} (im : image A) (rr cc : list Z) :
  img_wf im ->
  Forall2 (fun r c => 0 <= r < img_height im /\ 0 <= c < img_width im) rr cc ->
  (exists z, img_take_points im rr cc = Ok (Plain1 z)
             /\ length z = length rr)
  \/ (exists z zm, img_take_points im rr cc = Ok (Masked1 z zm)
                   /\ length z = length rr /\ length zm = length rr).
Proof.
  unfold img_height, img_width. destruct im as [a|a m]; simpl; intros Hwf H.
  - left. destruct (take_points_in_range a rr cc Hwf H) as (z & -> & Hz).
    simpl. eauto.
  - right. destruct Hwf as (Hwa & Hwm & Hshape).
    destruct (take_points_in_range a rr cc Hwa H) as (z & -> & Hz).
    injection Hshape as Hnr Hnc.
    destruct (take_points_in_range m rr cc Hwm) as (zm & -> & Hzm).
    { rewrite Hnr, Hnc. exact H. }
    simpl. eauto.
Qed.

Lemma Forall2_select {A B} (P : A -> B -> Prop) (m : list bool) l k :
  Forall2 P l k -> Forall2 P (Np.select m l) (Np.select m k).
Proof.
  intros H. revert m. induction H as [|x y l k Hxy H IH]; intros [|b m]; simpl;
    try constructor.
  destruct b; [constructor|]; auto.
Qed.

Lemma length_linspace01 n : length (Np.linspace01 n) = n.
Proof. unfold Np.linspace01. by rewrite length_fmap, length_seq. Qed.

(** ** [values_along_line] *)

Section sampling.
Context {lib : NumLib} {A : Type} {dt : Dtype A}.
Variables (im : image A) (x0 y0 x1 y1 : Q).

Local Abbreviation path :=
  (line (Py.round y0) (Py.round x0) (Py.round y1) (Py.round x1)).

Lemma line_indices_spec :
  exists rr cc d,
    line_indices im x0 y0 x1 y1 = Ok (rr, cc, d)
    /\ Forall2 (index_in_image im) rr cc
    /\ length d = length rr
    /\ (Forall (fun p => ~ in_image im p.2 p.1) (points path) ->
        rr = [] /\ cc = [] /\ d = []).
Proof.
  unfold line_indices. cbn [img_shape Np.shape].
  pose proof (line_same_length (Py.round y0) (Py.round x0)
                               (Py.round y1) (Py.round x1)) as Hlen.
  unfold points.
  destruct path as [rr_full cc_full]. cbn [fst snd] in *.
  set (inb := fun r c : Z =>
         (0 <=? r) && (r <? Z.of_nat (Np.nrows (img_data im)))
         && (0 <=? c) && (c <? Z.of_nat (nd_ncols (img_data im)))).
  set (valid := zip_with inb rr_full cc_full).
  set (d_full := if Py.lt 0 _ then _ else _).
  assert (Hd : length d_full = length rr_full).
  { unfold d_full. destruct (Py.lt 0 _).
    - by rewrite length_fmap, length_linspace01.
    - apply length_replicate. }
  assert (Hv : length valid = length rr_full).
  { unfold valid. rewrite length_zip_with. lia. }
  rewrite !compress_ok by lia. cbn [bind].
  eexists _, _, _. split; [reflexivity|]. split; [|split].
  - eapply Forall2_impl; [by apply select_zip_with_both|].
    intros r c. unfold inb, index_in_image, in_image, img_height, img_width.
    cbn [img_shape Np.shape fst snd].
    rewrite !andb_true_iff, !Z.leb_le, !Z.ltb_lt. tauto.
  - apply length_select; lia.
  - intros Hout.
    assert (Hf : Forall (fun p => inb p.1 p.2 = false) (zip rr_full cc_full)).
    { eapply Forall_impl; [exact Hout|]. intros [r c]. simpl.
      unfold in_image, inb, img_height, img_width.
      cbn [img_shape Np.shape fst snd]. intros Hn.
      apply not_true_iff_false.
      rewrite !andb_true_iff, !Z.leb_le, !Z.ltb_lt. tauto. }
    unfold valid. by rewrite !select_zip_with_none.
Qed.

Lemma values_along_line_spec :
  img_wf im ->
  exists rr cc d x y z s,
    line_indices im x0 y0 x1 y1 = Ok (rr, cc, d)
    /\ Forall2 (index_in_image im) rr cc
    /\ values_along_line im x0 y0 x1 y1 = Ok (x, y, z, s)
    /\ Forall2 (pixel_of_image im) x y
    /\ length z = length x
    /\ length s = length x
    /\ (Forall (fun p => ~ in_image im p.2 p.1) (points path) ->
        x = [] /\ y = [] /\ z = [] /\ s = []).
Proof.
  intros Hwf. unfold values_along_line.
  destruct line_indices_spec as (rr & cc & d & -> & Hidx & Hld & Hnone).
  exists rr, cc, d. cbn [bind].
  assert (Hin : Forall2 (fun r c => 0 <= r < img_height im
                                    /\ 0 <= c < img_width im) rr cc).
  { eapply Forall2_impl; [exact Hidx|].
    unfold index_in_image, in_image. tauto. }
  assert (Hpix : Forall2 (pixel_of_image im) (inject_Z <$> cc)
                         (inject_Z <$> rr)).
  { apply Forall2_fmap, Forall2_flip.
    eapply Forall2_impl; [exact Hidx|].
    intros r c Hrc. by exists c, r. }
  assert (Hlrc : length cc = length rr).
  { symmetry. exact (Forall2_length _ _ _ Hin). }
  destruct (img_take_points_in_range im rr cc Hwf Hin)
    as [(z & -> & Hz)|(z & zm & -> & Hz & Hzm)]; cbn [bind].
  - eexists _, _, _, _. split; [reflexivity|]. split; [exact Hidx|].
    split; [reflexivity|].
    split; [exact Hpix|]. rewrite !length_fmap.
    split; [lia|]. split; [lia|].
    intros Hout. destruct (Hnone Hout) as (Er & Ec & Ed).
    rewrite Er, Ec, Ed in *. destruct z; [done | simpl in Hz; lia].
  - destruct (existsb id zm) eqn:Em.
    + rewrite !compress_ok by (rewrite length_fmap; lia). cbn [bind].
      eexists _, _, _, _. split; [reflexivity|]. split; [exact Hidx|].
      split; [reflexivity|].
      rewrite <- !select_fmap.
      split; [by apply Forall2_select|]. rewrite !select_fmap, !length_fmap.
      split; [apply length_select; rewrite length_fmap; lia|].
      split; [apply length_select; rewrite length_fmap; lia|].
      intros Hout. destruct (Hnone Hout) as (Er & Ec & Ed).
      rewrite Er, Ec, Ed in *. destruct zm; [|simpl in Hzm; lia].
      destruct z; [done | simpl in Hz; lia].
    + eexists _, _, _, _. split; [reflexivity|]. split; [exact Hidx|].
      split; [reflexivity|].
      split; [exact Hpix|]. rewrite !length_fmap.
      split; [lia|]. split; [lia|].
      intros Hout. destruct (Hnone Hout) as (Er & Ec & Ed).
      rewrite Er, Ec, Ed in *. destruct z; [done | simpl in Hz; lia].
Qed.



End sampling.

(** ** [rotate_image] *)

Section rotation.
Context {lib : NumLib} {A : Type} {dt : Dtype A}.
Implicit Types (original rotated : ndarray A).

Lemma rotate_image_without_angle original (x0 y0 : Q) :
  rotate_image original x0 y0 None = Ok original.
Proof. reflexivity. Qed.

Lemma set_slice2_shape (a a' src : ndarray A) rs cs :
  Np.set_slice2 a rs cs src = Ok a' -> Np.shape a' = Np.shape a.
Proof.
  unfold Np.set_slice2. destruct (_ && _); [|done]. intros [= <-].
  unfold Np.shape, Np.nrows, Np.rewrite_rows. cbn [nd_rows nd_ncols].
  by rewrite length_imap.
Qed.

Lemma shape_zeros_like original :
  Np.shape (Np.zeros_like original) = Np.shape original.
Proof.
  unfold Np.shape, Np.nrows, Np.zeros_like. cbn [nd_rows nd_ncols].
  by rewrite length_replicate.
Qed.

(** When the copy succeeds the result has the shape of the original. *)
Lemma recrop_shape original rotated voff hoff s :
  recrop original rotated voff hoff = Ok s -> Np.shape s = Np.shape original.
Proof.
  unfold recrop. cbn [Np.shape]. intros H.
  apply set_slice2_shape in H. by rewrite H, shape_zeros_like.
Qed.

Lemma rotate_image_shape original x0 y0 phi s :
  rotate_image original x0 y0 phi = Ok s -> Np.shape s = Np.shape original.
Proof.
  destruct phi as [phi|]; unfold rotate_image.
  - destruct (rotate_offsets original _ x0 y0 phi) as [voff hoff].
    apply recrop_shape.
  - by intros [= <-].
Qed.

(** The lengths [vlen], [hlen] are not clamped at zero.  When the vertical
    offset exceeds the height of the rotated image by less than the height
    of the original, the source slice is empty while the target slice, its
    negative end counted from the bottom, is not: the assignment fails. *)
Lemma recrop_raises original rotated voff hoff :
  Z.of_nat (Np.nrows rotated) < voff ->
  voff < Z.of_nat (Np.nrows rotated) + Z.of_nat (Np.nrows original) ->
  recrop original rotated voff hoff = Raise ValueError.
Proof.
  intros Hlo Hhi. unfold recrop. cbn [Np.shape].
  set (ov := Z.of_nat (Np.nrows original)) in *.
  set (rv := Z.of_nat (Np.nrows rotated)) in *.
  unfold Np.set_slice2.
  match goal with |- (if ?b && _ then _ else _) = _ =>
    assert (Hb : b = false); [|by rewrite Hb] end.
  assert (Hsrc : Np.nrows (Np.slice2 rotated
            (Py.Slice (Z.max voff 0)
                      (Z.max voff 0 + (Z.min (voff + ov) rv - Z.max voff 0)))
            (Py.Slice (Z.max hoff 0)
                      (Z.max hoff 0
                       + (Z.min (hoff + Z.of_nat (nd_ncols original))
                                (Z.of_nat (nd_ncols rotated))
                          - Z.max hoff 0)))) = 0%nat).
  { unfold Np.nrows at 1, Np.slice2. cbn [nd_rows].
    rewrite length_fmap. unfold Py.get_slice. rewrite length_take.
    fold (Np.nrows rotated). cbn [Py.slice_len]. fold rv.
    unfold Py.adjust.
    destruct (_ <? 0) eqn:E1; destruct (Z.max voff 0 <? 0) eqn:E2; lia. }
  rewrite Hsrc. unfold Np.broadcasts.
  replace (Np.nrows (Np.zeros_like original)) with (Np.nrows original)
    by (symmetry; exact (f_equal fst (shape_zeros_like original))).
  set (n := Py.slice_len (Np.nrows original) _).
  assert (Hn : n <> 0%nat).
  { unfold n. cbn [Py.slice_len]. fold ov. unfold Py.adjust.
    destruct (_ <? 0) eqn:E1; destruct (Z.max (- voff) 0 <? 0) eqn:E2; lia. }
  by destruct n.
Qed.

End rotation.

(** C8. [rotate_image] does not return for every centre.  On the 4 x 4
    image, turned by the float pi about the centre (1.5, -1.5) above the
    image, the vertical offset is 6: the slice assignment gets an empty
    source for two target rows and raises [ValueError] instead of
    returning an array of the shape of the original. *)
Theorem rotate_image_half_turn_raises :
  rotate_offsets (lib := half_turn_lib) image4
    (@ndimage_rotate half_turn_lib Z _ image4
       (@np_degrees half_turn_lib float_pi))
    (3 # 2) (- 3 # 2) float_pi
  = (6, 0)
  /\ rotate_image (lib := half_turn_lib) image4 (3 # 2) (- 3 # 2)
                  (Some float_pi)
     = Raise ValueError.
Proof. split; vm_compute; reflexivity. Qed.

(** ** Closed instances *)

Lemma image4_wf : img_wf (Plain image4).
Proof. unfold img_wf, Np.wf. simpl. repeat constructor. Defined.

Lemma image4_masked_wf : img_wf image4_masked.
Proof.
  unfold image4_masked, img_wf, Np.wf. simpl.
  split; [repeat constructor | split; [repeat constructor | reflexivity]].
Defined.

(** The request x in [-1, 3), y in [1, 6) on the 4 x 4 image leaves it on
    the left and at the bottom: the result is a 5 x 4 masked array whose
    cell (0, 1) is the pixel at row 1, column 0 and whose cell (0, 0) is
    padding. *)
Lemma crop_straddling_witness :
  (3 <= rect_height (requested (-1) 3 1 6)
   /\ 3 <= rect_width (requested (-1) 3 1 6)
   /\ overlaps (Plain image4) (requested (-1) 3 1 6)
   /\ ~ inside (Plain image4) (requested (-1) 3 1 6))
  /\ exists data mask,
       crop_image_to_rect (Plain image4) 1 1 (-1) 3 1 6
       = Ok (Some (Masked data mask, (1 - inject_Z (-1))%Q,
                   (1 - inject_Z 1)%Q))
       /\ Np.shape data = (5%nat, 4%nat)
       /\ Np.get data 0 1 = Some 5
       /\ Np.get mask 0 1 = Some false
       /\ Np.get data 0 0 = Some 0
       /\ Np.get mask 0 0 = Some true.
Proof.
  assert (H1 : 3 <= rect_height (requested (-1) 3 1 6)) by (vm_compute; discriminate).
  assert (H2 : 3 <= rect_width (requested (-1) 3 1 6)) by (vm_compute; discriminate).
  assert (H3 : overlaps (Plain image4) (requested (-1) 3 1 6)).
  { exists 0, 1. unfold in_rect, in_image. vm_compute. intuition discriminate. }
  assert (H4 : ~ inside (Plain image4) (requested (-1) 3 1 6)).
  { intros (H & _). vm_compute in H. by apply H. }
  split; [tauto|].
  destruct (crop_straddling_padded_and_masked (Plain image4) 1 1 (-1) 3 1 6
              H1 H2 H3 H4) as (data & mask & E & Hs & _ & Hcells).
  destruct (Hcells image4_wf) as (_ & _ & Hc).
  exists data, mask. split; [exact E|]. split; [exact Hs|].
  destruct (Hc 0%nat 1%nat) as [Hin _];
    [vm_compute; reflexivity | vm_compute; reflexivity |].
  destruct (Hc 0%nat 0%nat) as [_ Hout];
    [vm_compute; reflexivity | vm_compute; reflexivity |].
  destruct Hin as (_ & Hd & Hm).
  { unfold in_image. vm_compute. intuition discriminate. }
  destruct Hout as [Hd0 Hm0].
  { unfold in_image. intros [[Hx _] _]. vm_compute in Hx. by apply Hx. }
  repeat split; assumption.
Defined.

(** The request x in [1, 4), y in [0, 3) lies inside the 4 x 4 image: the
    result is the plain 3 x 3 slice. *)
Lemma crop_inside_witness :
  (img_wf (Plain image4)
   /\ 3 <= rect_height (requested 1 4 0 3)
   /\ 3 <= rect_width (requested 1 4 0 3)
   /\ inside (Plain image4) (requested 1 4 0 3))
  /\ exists sub,
       crop_image_to_rect (Plain image4) 1 1 1 4 0 3
       = Ok (Some (sub, (1 - inject_Z 1)%Q, (1 - inject_Z 0)%Q))
       /\ is_plain sub = true
       /\ img_shape sub = (3%nat, 3%nat)
       /\ Np.get (img_data sub) 2 0 = Some 10.
Proof.
  assert (H1 : 3 <= rect_height (requested 1 4 0 3)) by (vm_compute; discriminate).
  assert (H2 : 3 <= rect_width (requested 1 4 0 3)) by (vm_compute; discriminate).
  assert (H3 : inside (Plain image4) (requested 1 4 0 3)).
  { unfold inside. vm_compute. intuition discriminate. }
  split; [pose proof image4_wf; tauto|].
  destruct (crop_inside_is_subimage (Plain image4) 1 1 1 4 0 3
              image4_wf H1 H2 H3) as (sub & E & _ & Hp & Hs & Hc).
  exists sub. split; [exact E|]. split; [exact Hp|]. split; [exact Hs|].
  destruct (Hc 2%nat 0%nat) as [_ Hg];
    [vm_compute; reflexivity | vm_compute; reflexivity |].
  exact Hg.
Defined.



(** Zero columns are refused. *)
Lemma create_test_image_rejects_witness :
  invalid_test_image_args (PyInt 0) (PyInt 5) None 255
  /\ create_test_image (lib := half_turn_lib) (PyInt 0) (PyInt 5) 2 2 3 1 None
                       0 "poisson" 255
     = Raise ValueError.
Proof.
  assert (H : invalid_test_image_args (PyInt 0) (PyInt 5) None 255).
  { left. intros (n & Hn & Hpos). injection Hn as <-. lia. }
  split; [exact H|].
  exact (create_test_image_rejects half_turn_lib (PyInt 0) (PyInt 5) 2 2 3 1
           None 0 "poisson" 255 H).
Defined.

(** * Further properties *)

(** ** The copy step of [rotate_image] *)

Section recrop_cells.
Context {A : Type} {dt : Dtype A}.
Variables (original rotated : ndarray A) (voff hoff : Z).

(** X1. With the offsets within the two images ([-ov <= voff <= rv] and
    [-oh <= hoff <= rh]) the copy step of [rotate_image] succeeds and is a
    translation: cell (i, j) of the result is cell (i + voff, j + hoff) of
    the rotated image where that exists, and zero elsewhere. *)
Theorem recrop_translates_and_zero_fills :
  Np.wf rotated ->
  - Z.of_nat (Np.nrows original) <= voff <= Z.of_nat (Np.nrows rotated) ->
  - Z.of_nat (nd_ncols original) <= hoff <= Z.of_nat (nd_ncols rotated) ->
  exists s,
    recrop original rotated voff hoff = Ok s
    /\ Np.shape s = Np.shape original
    /\ Np.wf s
    /\ forall i j : nat,
         (i < Np.nrows original)%nat -> (j < nd_ncols original)%nat ->
         let y := Z.of_nat i + voff in
         let x := Z.of_nat j + hoff in
         (in_array rotated y x ->
            is_Some (Np.get s i j)
            /\ Np.get s i j = Np.get rotated (Z.to_nat y) (Z.to_nat x))
         /\ (~ in_array rotated y x -> Np.get s i j = Some dzero).
Proof.
  intros Hwr Hv Hh. unfold recrop, in_array. cbn [Np.shape].
  set (ov := Z.of_nat (Np.nrows original)) in *.
  set (oh := Z.of_nat (nd_ncols original)) in *.
  set (rv := Z.of_nat (Np.nrows rotated)) in *.
  set (rh := Z.of_nat (nd_ncols rotated)) in *.
  set (rv1 := Z.max voff 0). set (sv1 := Z.max (- voff) 0).
  set (vlen := Z.min (voff + ov) rv - rv1).
  set (rh1 := Z.max hoff 0). set (sh1 := Z.max (- hoff) 0).
  set (hlen := Z.min (hoff + oh) rh - rh1).
  set (s0 := Np.zeros_like original).
  set (src := Np.slice2 rotated (Py.Slice rv1 (rv1 + vlen))
                                (Py.Slice rh1 (rh1 + hlen))).
  assert (Hs0r : Np.nrows s0 = Np.nrows original).
  { exact (f_equal fst (shape_zeros_like original)). }
  assert (Hs0c : nd_ncols s0 = nd_ncols original) by done.
  assert (Hwf0 : Np.wf s0) by apply wf_replicate2.
  assert (Hsrc : Np.shape src = (Z.to_nat vlen, Z.to_nat hlen)).
  { unfold src. rewrite shape_slice2 by (fold rv rh; lia).
    f_equal; f_equal; lia. }
  pose proof (f_equal fst Hsrc) as Hsr. pose proof (f_equal snd Hsrc) as Hsc.
  cbn [fst snd Np.shape] in Hsr, Hsc. clear Hsrc.
  assert (Hwfs : Np.wf src).
  { apply wf_slice2; fold rh; [done | lia..]. }
  destruct (set_slice2_same_shape s0 (Py.Slice sv1 (sv1 + vlen))
              (Py.Slice sh1 (sh1 + hlen)) src)
    as (s & Hset & Hshape & Hwfd & Hget).
  { rewrite Hsr, Hs0r. rewrite slice_len_in_range by (fold ov; lia). lia. }
  { rewrite Hsc, Hs0c. rewrite slice_len_in_range by (fold oh; lia). lia. }
  exists s. split; [exact Hset|].
  split; [rewrite Hshape; exact (shape_zeros_like original)|].
  split; [by apply Hwfd|].
  intros i j Hi Hj.
  rewrite (Hget i j) by (done || lia). rewrite Hs0r, Hs0c.
  rewrite !in_slice_in_range by (fold ov oh; lia).
  assert (Hzero : Np.get s0 i j = Some dzero).
  { unfold s0, Np.zeros_like. by apply get_replicate2. }
  split.
  - intros [[Hy0 Hy1] [Hx0 Hx1]].
    assert (Hb : (sv1 <=? Z.of_nat i) && (Z.of_nat i <? sv1 + vlen)
                 && ((sh1 <=? Z.of_nat j) && (Z.of_nat j <? sh1 + hlen))
                 = true).
    { rewrite !andb_true_iff, !Z.leb_le, !Z.ltb_lt. lia. }
    rewrite Hb. rewrite !slice_start_in_range by (fold ov oh; lia).
    unfold src. rewrite get_slice2 by (done || fold rv rh; lia).
    replace (Z.to_nat rv1 + (i - Z.to_nat sv1))%nat
      with (Z.to_nat (Z.of_nat i + voff)) by lia.
    replace (Z.to_nat rh1 + (j - Z.to_nat sh1))%nat
      with (Z.to_nat (Z.of_nat j + hoff)) by lia.
    split; [|done]. apply get_in_range; [done | fold rv; lia | fold rh; lia].
  - intros Hout.
    assert (Hb : (sv1 <=? Z.of_nat i) && (Z.of_nat i <? sv1 + vlen)
                 && ((sh1 <=? Z.of_nat j) && (Z.of_nat j <? sh1 + hlen))
                 = false).
    { apply not_true_iff_false.
      rewrite !andb_true_iff, !Z.leb_le, !Z.ltb_lt. lia. }
    by rewrite Hb.
Qed.

End recrop_cells.

(** ** What [values_along_line] samples *)

Lemma sublist_zip_select {A B} (m : list bool) (l : list A) (k : list B) :
  zip (Np.select m l) (Np.select m k) `sublist_of` zip l k.
Proof.
  revert l k. induction m as [|b m IH]; intros [|x l] [|y k]; simpl;
    try apply sublist_nil_l.
  - destruct (if b then _ else _); apply sublist_nil_l.
  - destruct b; [apply sublist_skip | apply sublist_cons]; apply IH.
Qed.

Lemma take_points_items {A} (a : ndarray A) (rr cc : list Z) z :
  Np.take_points a rr cc = Ok z ->
  Forall2 (fun p v => Np.item a p.1 p.2 = Ok v) (zip rr cc) z.
Proof.
  unfold Np.take_points. destruct (_ =? _)%nat; [|done].
  revert z. induction (zip rr cc) as [|p l IH]; simpl; intros z.
  - intros [= <-]. constructor.
  - destruct (Np.item a p.1 p.2) as [x|] eqn:Ex; [|done]. simpl.
    destruct (foldr _ _ l) as [xs|]; [|done]. simpl.
    intros [= <-]. constructor; auto.
Qed.

Lemma item_get {A} (a : ndarray A) (r c : Z) v :
  0 <= r < Z.of_nat (Np.nrows a) -> 0 <= c < Z.of_nat (nd_ncols a) ->
  Np.item a r c = Ok v -> Np.get a (Z.to_nat r) (Z.to_nat c) = Some v.
Proof.
  intros Hr Hc. unfold Np.item. rewrite !wrap_index_in_range by done.
  destruct (Np.get a _ _); [|done]. by intros [= ->].
Qed.

Lemma existsb_id_false (m : list bool) :
  existsb id m = false -> Forall (fun b => b = false) m.
Proof.
  induction m as [|b m IH]; simpl; [constructor|].
  destruct b; [done|]. intros H. constructor; auto.
Qed.

(** Filtering by the negated mask keeps the entries whose mask bit is off. *)
Lemma select_negated_mask {A B} (P : A -> B -> Prop) (Q : A -> bool -> Prop)
    (l : list A) (k : list B) (m : list bool) :
  Forall2 P l k -> Forall2 Q l m ->
  Forall2 (fun x y => P x y /\ Q x false)
          (Np.select (negb <$> m) l) (Np.select (negb <$> m) k).
Proof.
  intros H. revert m. induction H as [|x y l k Hxy H IH]; intros m Hm.
  - inversion Hm; subst. constructor.
  - inversion Hm as [|? b ? m' Hq Hm']; subst. simpl.
    destruct b; simpl; [|constructor]; auto.
Qed.

Lemma zip_select {A B} (m : list bool) (l : list A) (k : list B) :
  zip (Np.select m l) (Np.select m k) = Np.select m (zip l k).
Proof.
  revert l k. induction m as [|b m IH]; intros [|x l] [|y k]; simpl; try done.
  - by destruct (if b then _ else _).
  - destruct b; simpl; by rewrite IH.
Qed.

Lemma select_all_unmasked {A} (m : list bool) (l : list A) :
  Forall (fun b => b = false) m -> length m = length l ->
  Np.select (negb <$> m) l = l.
Proof.
  intros H. revert l. induction H as [|b m -> H IH]; intros [|x l]; simpl;
    try done.
  intros [= Hl]. by rewrite IH.
Qed.

Section samples.
Context {lib : NumLib} {A : Type} {dt : Dtype A}.
Variables (im : image A) (x0 y0 x1 y1 : Q).

Local Abbreviation path :=
  (line (Py.round y0) (Py.round x0) (Py.round y1) (Py.round x1)).

Lemma line_indices_follow_line rr cc d :
  line_indices im x0 y0 x1 y1 = Ok (rr, cc, d) ->
  zip rr cc `sublist_of` points path.
Proof.
  unfold line_indices, points. cbn [img_shape Np.shape].
  pose proof (line_same_length (Py.round y0) (Py.round x0)
                               (Py.round y1) (Py.round x1)) as Hlen.
  destruct path as [rr_full cc_full]. cbn [fst snd] in *.
  set (valid := zip_with _ rr_full cc_full).
  set (d_full := if Py.lt 0 _ then _ else _).
  assert (Hd : length d_full = length rr_full).
  { unfold d_full. destruct (Py.lt 0 _).
    - by rewrite length_fmap, length_linspace01.
    - apply length_replicate. }
  assert (Hv : length valid = length rr_full).
  { unfold valid. rewrite length_zip_with. lia. }
  rewrite !compress_ok by lia. cbn [bind].
  intros [= <- <- <-]. apply sublist_zip_select.
Qed.

Lemma img_take_points_samples (rr cc : list Z) :
  img_wf im -> Forall2 (index_in_image im) rr cc ->
  match img_take_points im rr cc with
  | Ok (Plain1 z) =>
      is_plain im = true
      /\ Forall2 (fun p v => unmasked_pixel im p.1 p.2 v) (zip rr cc) z
  | Ok (Masked1 z zm) =>
      Forall2 (fun p v => index_in_image im p.1 p.2
                 /\ Np.get (img_data im) (Z.to_nat p.1) (Z.to_nat p.2)
                    = Some v) (zip rr cc) z
      /\ Forall2 (fun p b =>
                    match im with
                    | Plain _ => True
                    | Masked _ m =>
                        Np.get m (Z.to_nat p.1) (Z.to_nat p.2) = Some b
                    end) (zip rr cc) zm
  | Raise _ => False
  end.
Proof.
  intros Hwf Hidx.
  assert (Hzip : Forall (fun p => index_in_image im p.1 p.2) (zip rr cc)).
  { clear Hwf. induction Hidx; simpl; constructor; auto. }
  assert (Hin : Forall2 (fun r c => 0 <= r < img_height im
                                    /\ 0 <= c < img_width im) rr cc).
  { eapply Forall2_impl; [exact Hidx|].
    unfold index_in_image, in_image. tauto. }
  pose proof (img_take_points_in_range im rr cc Hwf Hin) as Hok.
  unfold index_in_image, in_image, img_height, img_width in *.
  destruct im as [a|a m]; cbn [img_take_points img_data img_shape Np.shape
                                fst snd is_plain] in *.
  - destruct (Np.take_points a rr cc) as [z|] eqn:Ez; cbn [bind] in *;
      [|by destruct Hok as [(? & ? & ?)|(? & ? & ? & ?)]].
    split; [done|]. apply take_points_items in Ez.
    unfold unmasked_pixel, index_in_image, in_image, img_height, img_width.
    cbn [img_data img_shape Np.shape fst snd].
    clear Hok. revert Hzip. induction Ez as [|p v l z Hp Ez IH]; intros Hz.
    + constructor.
    + apply Forall_cons in Hz as [Hp0 Hz]. constructor; [|auto].
      split; [done|]. split; [|done]. apply item_get; [lia | lia | done].
  - destruct Hwf as (Hwa & Hwm & Hshape).
    pose proof (f_equal fst Hshape) as Hnr. pose proof (f_equal snd Hshape) as Hnc.
    cbn [fst snd Np.shape] in Hnr, Hnc.
    destruct (Np.take_points a rr cc) as [z|] eqn:Ez; cbn [bind] in *;
      [|by destruct Hok as [(? & ? & ?)|(? & ? & ? & ?)]].
    destruct (Np.take_points m rr cc) as [zm|] eqn:Em; cbn [bind] in *;
      [|by destruct Hok as [(? & ? & ?)|(? & ? & ? & ?)]].
    apply take_points_items in Ez, Em. clear Hok. split.
    + clear Em. revert Hzip. induction Ez as [|p v l z Hp Ez IH]; intros Hz.
      * constructor.
      * apply Forall_cons in Hz as [Hp0 Hz]. constructor; [|auto].
        split; [done|]. apply item_get; [lia | lia | done].
    + clear Ez. revert Hzip.
      induction Em as [|p b l zm Hp Em IH]; intros Hz.
      * constructor.
      * apply Forall_cons in Hz as [Hp0 Hz]. constructor; [|auto].
        apply item_get; [lia | lia | done].
Qed.

Lemma values_along_line_samples :
  img_wf im ->
  exists rows cols zv s,
    values_along_line im x0 y0 x1 y1
    = Ok (inject_Z <$> cols, inject_Z <$> rows, to_float <$> zv, s)
    /\ zip rows cols `sublist_of` points path
    /\ Forall2 (fun p v => unmasked_pixel im p.1 p.2 v) (zip rows cols) zv.
Proof.
  intros Hwf. unfold values_along_line.
  destruct (line_indices_spec im x0 y0 x1 y1)
    as (rr & cc & d & E & Hidx & Hld & _).
  pose proof (line_indices_follow_line _ _ _ E) as Hsub.
  rewrite E. cbn [bind].
  pose proof (img_take_points_samples rr cc Hwf Hidx) as Hs.
  assert (Hlz : length (zip rr cc) = length rr).
  { rewrite length_zip_with. pose proof (Forall2_length _ _ _ Hidx). lia. }
  assert (Hlc : length cc = length rr).
  { symmetry. exact (Forall2_length _ _ _ Hidx). }
  destruct (img_take_points im rr cc) as [[z|z zm]|]; [| |done]; cbn [bind].
  - destruct Hs as [_ Hs]. by exists rr, cc, z, d.
  - destruct Hs as [Hz Hm].
    pose proof (Forall2_length _ _ _ Hz) as Hlenz.
    pose proof (Forall2_length _ _ _ Hm) as Hlenm.
    pose proof (select_negated_mask _ _ _ _ _ Hz Hm) as Hsel.
    destruct (existsb id zm) eqn:Ex.
    + rewrite !compress_ok by (rewrite length_fmap; lia). cbn [bind].
      eexists _, _, _, _. split; [reflexivity|]. split.
      * etrans; [apply sublist_zip_select | exact Hsub].
      * rewrite zip_select. eapply Forall2_impl; [exact Hsel|].
        intros p v [[Hi Hg] Hq]. exact (conj Hi (conj Hg Hq)).
    + exists rr, cc, z, d. split; [reflexivity|]. split; [exact Hsub|].
      apply existsb_id_false in Ex.
      rewrite !select_all_unmasked in Hsel by (done || lia).
      eapply Forall2_impl; [exact Hsel|].
      intros p v [[Hi Hg] Hq]. exact (conj Hi (conj Hg Hq)).
Qed.



End samples.

Section swapped_endpoints.
Context {lib : NumLib} {A : Type} {dt : Dtype A}.
Variables (im : image A) (x0 y0 x1 y1 : Q).

Lemma line_indices_swapped :
  exists rr cc d d',
    line_indices im x0 y0 x1 y1 = Ok (rr, cc, d)
    /\ line_indices im x1 y1 x0 y0 = Ok (rr, cc, d')
    /\ Forall2 (index_in_image im) rr cc
    /\ length d = length rr /\ length d' = length rr.
Proof.
  destruct (line_indices_spec im x0 y0 x1 y1)
    as (rr & cc & d & E & Hidx & Hd & _).
  destruct (line_indices_spec im x1 y1 x0 y0)
    as (rr' & cc' & d' & E' & _ & Hd' & _).
  exists rr, cc, d, d'. split; [exact E|].
  revert E E'. unfold line_indices. cbn [img_shape Np.shape].
  rewrite (line_reverse (Py.round y1) (Py.round x1)
                        (Py.round y0) (Py.round x0)).
  destruct (line (Py.round y0) (Py.round x0) (Py.round y1) (Py.round x1))
    as [rr_full cc_full].
  set (valid := zip_with _ rr_full cc_full).
  destruct (Np.compress valid rr_full) as [r1|]; [|done].
  destruct (Np.compress valid cc_full) as [c1|]; [|done]. cbn [bind].
  destruct (Np.compress valid _) as [d1|]; [|done].
  destruct (Np.compress valid _) as [d2|]; [|done]. cbn [bind].
  intros [= -> -> ->] [= <- <- ->]. done.
Qed.


End swapped_endpoints.

(** ** The points of [line] in closed form *)

Section line_closed_form.
Variables (steep : bool) (dr dc step : Z).
Hypothesis Hdr : 0 <= dr <= dc.
Hypothesis Hdc : 0 < dc.

Local Abbreviation other st := (if steep then ls_cc st else ls_rr st).

Lemma line_loop_other l st :
  0 <= ls_error st < dc ->
  other (foldl (line_body steep dr dc step) st l)
  = other st
    ++ imap (fun (k : nat) _ =>
               ls_r st
               + step * ((Z.of_nat k * dr + dc - 1 - ls_error st) `div` dc)) l.
Proof.
  revert st. induction l as [|c l IH]; intros st He.
  - simpl. by rewrite app_nil_r.
  - cbn [foldl]. rewrite IH.
    + rewrite imap_cons.
      assert (H0 : (Z.of_nat 0 * dr + dc - 1 - ls_error st) `div` dc = 0)
        by (apply Z.div_small; lia).
      rewrite H0, Z.mul_0_r, Z.add_0_r.
      unfold line_body.
      destruct (ls_error st - dr <? 0) eqn:E; destruct steep; simpl;
        rewrite <- app_assoc; f_equal; simpl; f_equal;
        apply imap_ext; intros k x _; simpl.
      all: try (replace (Z.of_nat k * dr + dc - 1 - (ls_error st - dr + dc))
                  with (Z.of_nat (S k) * dr + dc - 1 - ls_error st
                        + (-1) * dc) by lia;
                rewrite Z.div_add by lia; lia).
      all: f_equal; f_equal; f_equal; lia.
    + unfold line_body.
      destruct (ls_error st - dr <? 0) eqn:E; simpl; lia.
Qed.

End line_closed_form.

Lemma line_normalise_slope r0 c0 r1 c1 :
  forall steep a b c d,
    line_normalise r0 c0 r1 c1 = (steep, (a, b, c, d)) ->
    0 <= Z.abs (c - a) <= d - b.
Proof.
  intros steep a b c d. unfold line_normalise.
  destruct (Z.abs (c1 - c0) <? Z.abs (r1 - r0)) eqn:Hs;
    [destruct (r1 <? r0) eqn:Hc | destruct (c1 <? c0) eqn:Hc];
    intros [= <- <- <- <- <-]; lia.
Qed.

(** The endpoints behind the normalised ones. *)
Lemma line_normalise_endpoints r0 c0 r1 c1 :
  forall steep a b c d,
    line_normalise r0 c0 r1 c1 = (steep, (a, b, c, d)) ->
    let p := if steep then (b, a) else (a, b) in
    let q := if steep then (d, c) else (c, d) in
    (p = (r0, c0) /\ q = (r1, c1)) \/ (p = (r1, c1) /\ q = (r0, c0)).
Proof.
  intros steep a b c d. unfold line_normalise.
  destruct (Z.abs (c1 - c0) <? Z.abs (r1 - r0)) eqn:Hs;
    [destruct (r1 <? r0) eqn:Hc | destruct (c1 <? c0) eqn:Hc];
    intros [= <- <- <- <- <-]; simpl; auto.
Qed.

Lemma zip_fmap_seq {B C} (f : nat -> B) (g : nat -> C) (l : list nat) :
  zip (f <$> l) (g <$> l) = (fun k => (f k, g k)) <$> l.
Proof. induction l as [|x l IH]; csimpl; [done|]. by rewrite IH. Qed.

Lemma line_points_closed_form r0 c0 r1 c1 :
  forall steep a b c d,
    line_normalise r0 c0 r1 c1 = (steep, (a, b, c, d)) ->
    points (line r0 c0 r1 c1)
    = (fun k : nat =>
         line_point steep a b (Z.abs (c - a)) (d - b)
                    (if a <? c then 1 else -1) (Z.of_nat k))
      <$> seq 0 (Z.to_nat (d - b + 1)).
Proof.
  intros steep a b c d E.
  pose proof (line_normalise_slope _ _ _ _ _ _ _ _ _ E) as Hslope.
  destruct (line_unfold r0 c0 r1 c1)
    as (steep' & a' & b' & c' & d' & st & E' & Hst & Hl).
  rewrite E in E'. injection E' as <- <- <- <- <-.
  rewrite Hl. unfold points. cbn [fst snd].
  set (dr := Z.abs (c - a)) in *. set (dc := d - b) in *.
  set (step := if a <? c then 1 else -1) in *.
  set (init := LineState a (dc `div` 2) [] []) in *.
  set (l := Py.range b (d + 1)) in *.
  assert (Hlen : length l = Z.to_nat (dc + 1)).
  { unfold l, Py.range. rewrite length_seqZ. f_equal. lia. }
  assert (Hl' : l = (fun k : nat => b + Z.of_nat k) <$> seq 0 (Z.to_nat (dc + 1))).
  { unfold l, Py.range, seqZ. replace (d + 1 - b) with (dc + 1) by lia.
    apply list_fmap_ext. intros _ k _. lia. }
  pose proof (line_loop_march steep dr dc step l init) as Hmarch.
  cbn zeta in Hmarch. rewrite <- Hst in Hmarch.
  assert (Hother :
    (if steep then ls_cc st else ls_rr st)
    = (fun k : nat =>
         a + step * ((Z.of_nat k * dr + dc - 1 - dc `div` 2) `div` dc))
      <$> seq 0 (Z.to_nat (dc + 1))).
  { destruct (Z.eq_dec dc 0) as [Hz|Hnz].
    - assert (Hl1 : l = [b]).
      { rewrite Hl', Hz. simpl. f_equal. lia. }
      assert (Hdr0 : dr = 0) by lia.
      rewrite Hst, Hl1. unfold init. clearbody dr dc step. subst dc dr.
      simpl. unfold line_body. simpl.
      destruct steep; simpl; f_equal; rewrite Z.div_0_r; lia.
    - rewrite Hst, (line_loop_other steep dr dc step) by
        (unfold init; simpl;
         first [lia
               | split; [apply Z.div_pos | apply Z.div_lt_upper_bound]; lia]).
      unfold init. cbn [ls_r ls_error ls_rr ls_cc].
      rewrite imap_seq_0, Hlen. by destruct steep. }
  unfold line_point. fold dr dc step.
  destruct steep; simpl in Hmarch; rewrite Hmarch, Hother, Hl';
    rewrite zip_fmap_seq; reflexivity.
Qed.

(** How often the walk has stepped sideways after [k] marching steps. *)
Section sideways.
Variables (dr dc : Z).
Hypothesis Hdr : 0 <= dr <= dc.

Local Abbreviation moved k := ((k * dr + dc - 1 - dc `div` 2) `div` dc).

Lemma moved_rest : 0 < dc -> 0 <= dc - 1 - dc `div` 2 < dc.
Proof.
  intros Hdc.
  assert (0 <= dc `div` 2) by (apply Z.div_pos; lia).
  assert (dc `div` 2 < dc) by (apply Z.div_lt_upper_bound; lia).
  lia.
Qed.

Lemma moved_first : moved 0 = 0.
Proof.
  destruct (Z.eq_dec dc 0) as [->|Hnz]; [apply Z.div_0_r|].
  apply Z.div_small. pose proof moved_rest. lia.
Qed.

Lemma moved_last : moved dc = dr.
Proof.
  destruct (Z.eq_dec dc 0) as [Hz|Hnz].
  - rewrite Hz, Z.div_0_r. lia.
  - replace (dc * dr + dc - 1 - dc `div` 2)
      with (dr * dc + (dc - 1 - dc `div` 2)) by lia.
    rewrite Z.div_add_l by lia.
    rewrite (Z.div_small (dc - 1 - dc `div` 2)); [lia|].
    apply moved_rest. lia.
Qed.

Lemma moved_bounds k : 0 <= k <= dc -> 0 <= moved k <= dr.
Proof.
  intros Hk. destruct (Z.eq_dec dc 0) as [Hz|Hnz].
  - rewrite Hz, Z.div_0_r. lia.
  - pose proof (moved_rest ltac:(lia)) as Hr. split.
    + apply Z.div_pos; nia.
    + apply Z.lt_succ_r, Z.div_lt_upper_bound; nia.
Qed.

Lemma moved_step k : 0 <= k -> 0 <= moved (k + 1) - moved k <= 1.
Proof.
  intros Hk. destruct (Z.eq_dec dc 0) as [Hz|Hnz].
  - rewrite Hz, !Z.div_0_r. lia.
  - assert (Hlo : moved k <= moved (k + 1)).
    { apply Z.div_le_mono; nia. }
    assert (Hhi : moved (k + 1) <= moved k + 1).
    { rewrite <- (Z.div_add _ 1 dc) by lia. apply Z.div_le_mono; nia. }
    lia.
Qed.

End sideways.

Lemma line_point_start steep a b dr dc step :
  0 <= dr <= dc ->
  line_point steep a b dr dc step 0 = if steep then (b, a) else (a, b).
Proof.
  intros H. unfold line_point. rewrite (moved_first dr dc H).
  destruct steep; f_equal; lia.
Qed.

Lemma line_point_end steep a b dr dc step :
  0 <= dr <= dc ->
  line_point steep a b dr dc step dc
  = if steep then (b + dc, a + step * dr) else (a + step * dr, b + dc).
Proof.
  intros H. unfold line_point. by rewrite (moved_last dr dc H).
Qed.

Lemma line_step_reaches a c :
  a + (if a <? c then 1 else -1) * Z.abs (c - a) = c.
Proof. destruct (a <? c) eqn:E; lia. Qed.

(** X5. [line] joins its endpoints: the first and the last point of the
    sequence are the two endpoints, in one order or the other. *)
Theorem line_joins_endpoints (r0 c0 r1 c1 : Z) :
  exists p q,
    head (points (line r0 c0 r1 c1)) = Some p
    /\ last (points (line r0 c0 r1 c1)) = Some q
    /\ ((p = (r0, c0) /\ q = (r1, c1)) \/ (p = (r1, c1) /\ q = (r0, c0))).
Proof.
  destruct (line_normalise r0 c0 r1 c1) as [steep [[[a b] c] d]] eqn:E.
  pose proof (line_normalise_slope _ _ _ _ _ _ _ _ _ E) as Hslope.
  pose proof (line_normalise_endpoints _ _ _ _ _ _ _ _ _ E) as Hends.
  rewrite (line_points_closed_form _ _ _ _ _ _ _ _ _ E).
  replace (Z.to_nat (d - b + 1)) with (S (Z.to_nat (d - b))) by lia.
  exists (if steep then (b, a) else (a, b)),
         (if steep then (d, c) else (c, d)).
  split; [|split; [|exact Hends]].
  - cbn [seq fmap list_fmap head]. f_equal.
    by apply line_point_start.
  - rewrite seq_S, fmap_app, list_fmap_singleton, last_snoc. f_equal.
    cbn [Nat.add].
    rewrite Z2Nat.id by lia. rewrite line_point_end by done.
    rewrite line_step_reaches. destruct steep; f_equal; lia.
Qed.

(** X6. Every point of [line] lies in the bounding box of the endpoints. *)
Theorem line_within_bounding_box (r0 c0 r1 c1 : Z) :
  Forall (fun p => Z.min r0 r1 <= p.1 <= Z.max r0 r1
                   /\ Z.min c0 c1 <= p.2 <= Z.max c0 c1)
         (points (line r0 c0 r1 c1)).
Proof.
  destruct (line_normalise r0 c0 r1 c1) as [steep [[[a b] c] d]] eqn:E.
  pose proof (line_normalise_slope _ _ _ _ _ _ _ _ _ E) as Hslope.
  pose proof (line_normalise_endpoints _ _ _ _ _ _ _ _ _ E) as Hends.
  rewrite (line_points_closed_form _ _ _ _ _ _ _ _ _ E).
  apply Forall_fmap, Forall_forall. intros k Hk.
  apply elem_of_seq in Hk. unfold compose, line_point.
  pose proof (moved_bounds _ _ Hslope (Z.of_nat k) ltac:(lia)) as Hm.
  pose proof (line_step_reaches a c) as Hreach.
  set (m := (Z.of_nat k * Z.abs (c - a) + (d - b) - 1 - (d - b) `div` 2)
            `div` (d - b)) in *.
  cbn zeta in Hends.
  destruct steep; cbn [fst snd];
    destruct Hends as [[[= <- <-] [= <- <-]]|[[= <- <-] [= <- <-]]];
    destruct (a <? c) eqn:Eac; nia.
Qed.

(** X7. [line] leaves no gap: each point and the next one touch by a side
    or a corner, and differ. *)
Theorem line_has_no_gaps (r0 c0 r1 c1 : Z) :
  forall (k : nat) (p q : Z * Z),
    points (line r0 c0 r1 c1) !! k = Some p ->
    points (line r0 c0 r1 c1) !! S k = Some q ->
    adjacent p q /\ p <> q.
Proof.
  destruct (line_normalise r0 c0 r1 c1) as [steep [[[a b] c] d]] eqn:E.
  pose proof (line_normalise_slope _ _ _ _ _ _ _ _ _ E) as Hslope.
  rewrite (line_points_closed_form _ _ _ _ _ _ _ _ _ E).
  intros k p q Hp Hq.
  rewrite list_lookup_fmap in Hp, Hq.
  destruct (seq 0 (Z.to_nat (d - b + 1)) !! k) as [k1|] eqn:E1; [|done].
  destruct (seq 0 (Z.to_nat (d - b + 1)) !! S k) as [k2|] eqn:E2; [|done].
  apply lookup_seq in E1 as [-> _]. apply lookup_seq in E2 as [-> _].
  simpl in Hp, Hq. injection Hp as <-. injection Hq as <-.
  unfold adjacent, line_point.
  pose proof (moved_step _ _ Hslope (Z.of_nat k) ltac:(lia)) as Hm.
  replace (Z.of_nat (S k)) with (Z.of_nat k + 1) by lia.
  set (m1 := (Z.of_nat k * Z.abs (c - a) + (d - b) - 1 - (d - b) `div` 2)
             `div` (d - b)) in *.
  set (m2 := ((Z.of_nat k + 1) * Z.abs (c - a) + (d - b) - 1
              - (d - b) `div` 2) `div` (d - b)) in *.
  destruct steep; cbn [fst snd]; (split; [|intros [= ? ?]; lia]);
    destruct (a <? c); nia.
Qed.

(** ** [crop_image_to_rect2] *)

Section crop2.
Context {A : Type} {dt : Dtype A}.
Variables (im : image A) (xc_px yc_px xmin xmax ymin ymax : Q).

Local Abbreviation r := (requested xmin xmax ymin ymax).

(** X8. On a request of at least 3 x 3 pixels inside the image the two
    croppers agree: [crop_image_to_rect] returns what
    [crop_image_to_rect2] returns. *)
Theorem crop_variants_agree_inside :
  3 <= rect_height r -> 3 <= rect_width r -> inside im r ->
  crop_image_to_rect im xc_px yc_px xmin xmax ymin ymax
  = Ok (Some (crop_image_to_rect2 im xc_px yc_px xmin xmax ymin ymax)).
Proof.
  intros Hh Hw Hin. rewrite crop_inside by done.
  unfold crop_image_to_rect2, inside, img_width, img_height in *.
  cbn [img_shape Np.shape fst snd requested r_xmin r_xmax r_ymin r_ymax] in *.
  destruct Hin as (Hx0 & Hx1 & Hy0 & Hy1).
  rewrite (Z.max_r 0 (Py.int xmin)), (Z.max_r 0 (Py.int ymin)) by lia.
  rewrite (Z.min_r _ (Py.int xmax)), (Z.min_r _ (Py.int ymax)) by lia.
  reflexivity.
Qed.

(** X9. For a request that overlaps the image, [crop_image_to_rect2] returns
    exactly the part of the rectangle that lies in the image, unpadded: the
    shape is that of the clamped rectangle, each cell is the image pixel at
    the same place, and the centre is moved by the clamped corner. *)
Theorem crop_rect2_is_clamped_part :
  img_wf im -> overlaps im r ->
  let c := clamped im r in
  exists sub,
    crop_image_to_rect2 im xc_px yc_px xmin xmax ymin ymax
    = (sub, (xc_px - inject_Z (r_xmin c))%Q, (yc_px - inject_Z (r_ymin c))%Q)
    /\ is_plain sub = is_plain im
    /\ img_shape sub = (Z.to_nat (rect_height c), Z.to_nat (rect_width c))
    /\ 0 < rect_height c /\ 0 < rect_width c
    /\ forall i j : nat,
         Z.of_nat i < rect_height c -> Z.of_nat j < rect_width c ->
         is_Some (Np.get (img_data sub) i j)
         /\ Np.get (img_data sub) i j
            = Np.get (img_data im) (Z.to_nat (r_ymin c + Z.of_nat i))
                                   (Z.to_nat (r_xmin c + Z.of_nat j)).
Proof.
  intros Hwf Ho. apply overlaps_valid_region in Ho as [Hox Hoy].
  apply img_wf_data in Hwf.
  unfold crop_image_to_rect2, clamped, rect_height, rect_width,
    img_width, img_height in *.
  cbn [img_shape Np.shape fst snd requested r_xmin r_xmax r_ymin r_ymax] in *.
  eexists. split; [reflexivity|]. split; [by destruct im|].
  unfold img_shape. rewrite img_data_slice2.
  split; [by apply shape_slice2; lia|]. split; [lia|]. split; [lia|].
  intros i j Hi Hj. rewrite get_slice2 by (done || lia).
  replace (Z.to_nat (Z.max 0 (Py.int ymin) + Z.of_nat i))
    with (Z.to_nat (Z.max 0 (Py.int ymin)) + i)%nat by lia.
  replace (Z.to_nat (Z.max 0 (Py.int xmin) + Z.of_nat j))
    with (Z.to_nat (Z.max 0 (Py.int xmin)) + j)%nat by lia.
  split; [|done]. apply get_in_range; [done | lia | lia].
Qed.

(** X10. A rectangle wholly to the left of the image is not an empty crop for
    [crop_image_to_rect2]: its negative right bound counts from the right
    edge, so with [int(xmax) = -k], [0 < k < width], the result keeps the
    first [width - k] columns of the image. *)
Theorem crop_rect2_wraps_negative_bound :
  r_xmax r < 0 -> - img_width im < r_xmax r -> r_xmin r <= r_xmax r ->
  (img_shape (crop_image_to_rect2 im xc_px yc_px xmin xmax ymin ymax).1.1).2
  = Z.to_nat (img_width im + r_xmax r)
  /\ ~ overlaps im r.
Proof.
  intros Hneg Hk Hmin. split.
  - unfold crop_image_to_rect2, img_width in *.
    cbn [img_shape Np.shape fst snd requested r_xmin r_xmax r_ymin r_ymax] in *.
    unfold img_shape. rewrite img_data_slice2.
    cbn [Np.shape Np.slice2 nd_ncols snd Py.slice_len]. unfold Py.adjust.
    destruct (_ <? 0) eqn:E1; destruct (Z.max 0 (Py.int xmin) <? 0) eqn:E2;
      lia.
  - rewrite overlaps_valid_region.
    cbn [requested r_xmin r_xmax r_ymin r_ymax] in *. lia.
Qed.

End crop2.

(** ** The builtins [min] and [max] *)

Lemma foldl_min_spec (l : list Q) (m0 : Q) :
  let m := foldl (fun m y => if Py.lt y m then y else m) m0 l in
  (m = m0 \/ m ∈ l) /\ (m <= m0)%Q /\ Forall (fun y => (m <= y)%Q) l.
Proof.
  revert m0. induction l as [|y l IH]; intros m0; simpl.
  - split; [by left|]. split; [apply Qle_refl | constructor].
  - destruct (IH (if Py.lt y m0 then y else m0)) as (Hm & Hle & Hall).
    set (m := foldl _ _ l) in *.
    destruct (Py.lt y m0) eqn:E.
    + apply py_lt_iff in E. split; [|split].
      * destruct Hm as [->|Hm]; right; [left | by right].
      * eapply Qle_trans; [exact Hle | by apply Qlt_le_weak].
      * by constructor.
    + assert (Hy : (m0 <= y)%Q).
      { apply Qnot_lt_le. rewrite <- py_lt_iff, E. discriminate. }
      split; [|split].
      * destruct Hm as [->|Hm]; [by left | right; by right].
      * exact Hle.
      * constructor; [|exact Hall]. eapply Qle_trans; eauto.
Qed.

Lemma foldl_max_spec (l : list Q) (m0 : Q) :
  let m := foldl (fun m y => if Py.lt m y then y else m) m0 l in
  (m = m0 \/ m ∈ l) /\ (m0 <= m)%Q /\ Forall (fun y => (y <= m)%Q) l.
Proof.
  revert m0. induction l as [|y l IH]; intros m0; simpl.
  - split; [by left|]. split; [apply Qle_refl | constructor].
  - destruct (IH (if Py.lt m0 y then y else m0)) as (Hm & Hle & Hall).
    set (m := foldl _ _ l) in *.
    destruct (Py.lt m0 y) eqn:E.
    + apply py_lt_iff in E. split; [|split].
      * destruct Hm as [->|Hm]; right; [left | by right].
      * eapply Qle_trans; [by apply Qlt_le_weak | exact Hle].
      * by constructor.
    + assert (Hy : (y <= m0)%Q).
      { apply Qnot_lt_le. rewrite <- py_lt_iff, E. discriminate. }
      split; [|split].
      * destruct Hm as [->|Hm]; [by left | right; by right].
      * exact Hle.
      * constructor; [|exact Hall]. eapply Qle_trans; eauto.
Qed.

Lemma py_min_spec (x : Q) (l : list Q) :
  exists m, Py.min (x :: l) = Ok m /\ m ∈ x :: l
            /\ Forall (fun y => (m <= y)%Q) (x :: l).
Proof.
  destruct (foldl_min_spec l x) as (Hm & Hle & Hall).
  eexists. split; [reflexivity|]. split.
  - destruct Hm as [->|Hm]; [left | by right].
  - by constructor.
Qed.

Lemma py_max_spec (x : Q) (l : list Q) :
  exists m, Py.max (x :: l) = Ok m /\ m ∈ x :: l
            /\ Forall (fun y => (y <= m)%Q) (x :: l).
Proof.
  destruct (foldl_max_spec l x) as (Hm & Hle & Hall).
  eexists. split; [reflexivity|]. split.
  - destruct Hm as [->|Hm]; [left | by right].
  - by constructor.
Qed.

(** ** [crop_image_to_integration_rect] with both axes known *)

Lemma crop_returns {A} {dt : Dtype A} (im : image A)
    (xc_px yc_px xmin xmax ymin ymax : Q) :
  exists res, crop_image_to_rect im xc_px yc_px xmin xmax ymin ymax = Ok res.
Proof.
  destruct (Z.lt_ge_cases (rect_height (requested xmin xmax ymin ymax)) 3)
    as [Hh|Hh]; [rewrite crop_too_small by auto; eauto|].
  destruct (Z.lt_ge_cases (rect_width (requested xmin xmax ymin ymax)) 3)
    as [Hw|Hw]; [rewrite crop_too_small by auto; eauto|].
  destruct (overlaps_dec im xmin xmax ymin ymax) as [Ho|Ho].
  - destruct (crop_some im xc_px yc_px xmin xmax ymin ymax Hh Hw Ho)
      as [c ->]. eauto.
  - rewrite crop_no_overlap by done. eauto.
Qed.

(** X11. With [d_minor] and [phi] given, [crop_image_to_integration_rect]
    crops to the bounding box of the rotated rectangle: the bounds it hands
    to [crop_image_to_rect] are corner coordinates that enclose all five
    corners, and the call never raises. *)
Theorem crop_integration_rect_uses_bounding_box
    (lib : NumLib) (A : Type) (dt : Dtype A) (im : image A)
    (xc_px yc_px d_major d_minor phi mask_diameters : Q) :
  exists x_lo x_hi y_lo y_hi res,
    let xy := rotated_rect_arrays xc_px yc_px (mask_diameters * d_major)
                (mask_diameters * d_minor) phi in
    (x_lo ∈ xy.1 /\ x_hi ∈ xy.1 /\ y_lo ∈ xy.2 /\ y_hi ∈ xy.2)
    /\ Forall (fun x => (x_lo <= x <= x_hi)%Q) xy.1
    /\ Forall (fun y => (y_lo <= y <= y_hi)%Q) xy.2
    /\ crop_image_to_integration_rect im xc_px yc_px d_major (Some d_minor)
         (Some phi) mask_diameters
       = crop_image_to_rect im xc_px yc_px x_lo x_hi y_lo y_hi
    /\ crop_image_to_rect im xc_px yc_px x_lo x_hi y_lo y_hi = Ok res.
Proof.
  unfold crop_image_to_integration_rect.
  destruct (rotated_rect_arrays xc_px yc_px (mask_diameters * d_major)
              (mask_diameters * d_minor) phi) as [xp yp] eqn:E.
  assert (Hx : exists x l, xp = x :: l).
  { unfold rotated_rect_arrays in E. injection E as <- _. simpl. eauto. }
  assert (Hy : exists y l, yp = y :: l).
  { unfold rotated_rect_arrays in E. injection E as _ <-. simpl. eauto. }
  destruct Hx as (x & lx & ->). destruct Hy as (y & ly & ->).
  destruct (py_min_spec x lx) as (x_lo & Exl & Hxl & Hxlo).
  destruct (py_max_spec x lx) as (x_hi & Exh & Hxh & Hxhi).
  destruct (py_min_spec y ly) as (y_lo & Eyl & Hyl & Hylo).
  destruct (py_max_spec y ly) as (y_hi & Eyh & Hyh & Hyhi).
  rewrite Exl, Exh, Eyl, Eyh. cbn [bind].
  destruct (crop_returns im xc_px yc_px x_lo x_hi y_lo y_hi) as [res Hres].
  exists x_lo, x_hi, y_lo, y_hi, res. cbn [fst snd].
  split; [done|]. split; [|split; [|done]].
  - apply Forall_forall. intros q Hq.
    split; [exact (proj1 (Forall_forall _ _) Hxlo q Hq)
           | exact (proj1 (Forall_forall _ _) Hxhi q Hq)].
  - apply Forall_forall. intros q Hq.
    split; [exact (proj1 (Forall_forall _ _) Hylo q Hq)
           | exact (proj1 (Forall_forall _ _) Hyhi q Hq)].
Qed.

(** ** [rotate_points] and [rotated_rect_arrays] *)

(** X12. [rotated_rect_arrays] returns a closed outline: five corners of which
    the last is the first.  In exact arithmetic, and whatever values the
    sine and cosine take, opposite corners are mirror images in the centre
    (xc, yc). *)
Theorem rotated_rect_closed_and_centred
    (lib : NumLib) (xc_px yc_px d_major d_minor phi : Q) :
  exists x0 x1 x2 x3 y0 y1 y2 y3,
    rotated_rect_arrays xc_px yc_px d_major d_minor phi
    = ([x0; x1; x2; x3; x0], [y0; y1; y2; y3; y0])
    /\ (x0 + x2 == 2 * xc_px)%Q /\ (y0 + y2 == 2 * yc_px)%Q
    /\ (x1 + x3 == 2 * xc_px)%Q /\ (y1 + y3 == 2 * yc_px)%Q.
Proof.
  unfold rotated_rect_arrays, rotate_points. cbn [fmap list_fmap zip_with fst snd].
  do 8 eexists. split; [reflexivity|].
  repeat split; unfold Qdiv; ring.
Qed.

(** ** [major_axis_arrays] and [minor_axis_arrays] *)


(** ** [create_plus_minus_cmap] *)


(** ** [beam_ellipticity] *)

Lemma py_truediv_nonzero (x y : Q) :
  ~ (y == 0)%Q -> py_truediv x y = Some (x / y)%Q.
Proof.
  intros H. unfold py_truediv.
  destruct (Qeq_bool y 0) eqn:E; [|done]. by apply Qeq_bool_iff in E.
Qed.

(** X15. For positive diameters [beam_ellipticity] returns an ellipticity
    which, computed in exact arithmetic, lies in (0, 1], is 1 exactly when
    the two diameters are equal, and is the same when the two diameters are
    exchanged. *)
Theorem beam_ellipticity_range (np_sqrt : Q -> Q) (d_major d_minor : Q) :
  (0 < d_major)%Q -> (0 < d_minor)%Q ->
  exists e c c',
    beam_ellipticity np_sqrt d_major d_minor = Some (e, c)
    /\ beam_ellipticity np_sqrt d_minor d_major = Some (e, c')
    /\ (0 < e)%Q /\ (e <= 1)%Q
    /\ ((e == 1)%Q <-> (d_major == d_minor)%Q).
Proof.
  intros HM Hm. unfold beam_ellipticity.
  assert (HMnz : ~ (d_major == 0)%Q).
  { intros H. rewrite H in HM. by apply Qlt_irrefl in HM. }
  assert (Hmnz : ~ (d_minor == 0)%Q).
  { intros H. rewrite H in Hm. by apply Qlt_irrefl in Hm. }
  destruct (Py.lt d_minor d_major) eqn:E1.
  - apply py_lt_iff in E1.
    assert (E2 : Py.lt d_major d_minor = false).
    { apply not_true_iff_false. rewrite py_lt_iff.
      apply Qle_not_lt. by apply Qlt_le_weak. }
    rewrite E2, py_truediv_nonzero by done.
    eexists _, _, _. split; [reflexivity|]. split; [reflexivity|].
    assert (Hlt : (d_minor / d_major < 1)%Q).
    { apply Qlt_shift_div_r; [done|]. by rewrite Qmult_1_l. }
    split; [apply Qlt_shift_div_l; [done|]; by rewrite Qmult_0_l|].
    split; [by apply Qlt_le_weak|]. split.
    + intros H. rewrite H in Hlt. by apply Qlt_irrefl in Hlt.
    + intros H. rewrite H in E1. by apply Qlt_irrefl in E1.
  - destruct (Py.lt d_major d_minor) eqn:E2.
    + apply py_lt_iff in E2. rewrite py_truediv_nonzero by done.
      eexists _, _, _. split; [reflexivity|]. split; [reflexivity|].
      assert (Hlt : (d_major / d_minor < 1)%Q).
      { apply Qlt_shift_div_r; [done|]. by rewrite Qmult_1_l. }
      split; [apply Qlt_shift_div_l; [done|]; by rewrite Qmult_0_l|].
      split; [by apply Qlt_le_weak|]. split.
      * intros H. rewrite H in Hlt. by apply Qlt_irrefl in Hlt.
      * intros H. rewrite H in E2. by apply Qlt_irrefl in E2.
    + eexists _, _, _. split; [reflexivity|]. split; [reflexivity|].
      split; [reflexivity|]. split; [discriminate|].
      split; [|reflexivity]. intros _. apply Qle_antisym.
      * apply Qnot_lt_le. rewrite <- py_lt_iff, E1. discriminate.
      * apply Qnot_lt_le. rewrite <- py_lt_iff, E2. discriminate.
Qed.

(** ** [set_zero_to_lightgray] *)

Lemma py_int_of_integer (x : Q) (n : Z) : (x == inject_Z n)%Q -> Py.int x = n.
Proof.
  intros H. unfold Py.int.
  destruct (Qle_bool 0 x); [rewrite H; apply Qfloor_Z|].
  rewrite H. apply Qceiling_Z.
Qed.

(** X16. With 256 colours, [set_zero_to_lightgray] raises [IndexError] when
    the minimum is negative and the maximum is exactly zero: the index of
    zero is then 256, one past the last colour.  When the minimum is not
    negative, or the maximum is negative, it replaces colour 0 and returns. *)
Theorem set_zero_to_lightgray_edges (colors : list rgba) (min_val max_val : Q) :
  length colors = 256%nat ->
  ((min_val < 0)%Q -> (max_val == 0)%Q ->
   set_zero_to_lightgray colors min_val max_val = Raise IndexError)
  /\ ((0 <= min_val)%Q \/ (max_val < 0)%Q ->
      set_zero_to_lightgray colors min_val max_val
      = Ok (<[0%nat := lightgray]> colors)).
Proof.
  intros Hlen. unfold set_zero_to_lightgray, set_row. rewrite Hlen. split.
  - intros Hmin Hmax.
    assert (H1 : Py.lt min_val 0 = true) by by apply py_lt_iff.
    assert (H2 : Py.le 0 max_val = true).
    { apply py_le_iff. rewrite Hmax. apply Qle_refl. }
    rewrite H1, H2. cbn [andb].
    rewrite (py_int_of_integer _ 256); [reflexivity|].
    rewrite Hmax, Qabs_neg by (by apply Qlt_le_weak).
    field. intros H. apply Qlt_minus_iff in Hmin.
    unfold Qminus in H. rewrite H in Hmin. exact (Qlt_irrefl _ Hmin).
  - intros H.
    assert (Hc : Py.lt min_val 0 && Py.le 0 max_val = false).
    { apply not_true_iff_false.
      rewrite andb_true_iff, py_lt_iff, py_le_iff. intros [Ha Hb].
      destruct H as [H|H].
      - by apply (Qlt_not_le _ _ Ha).
      - by apply (Qlt_not_le _ _ H). }
    by rewrite Hc.
Qed.

(** ** [create_test_image] without an angle *)


(** ** The copy step of [rotate_image], past the rotated image *)

(** X18. The copy step of [rotate_image] raises [ValueError] whenever the
    vertical offset lies beyond the height [rv] of the rotated image by less
    than the height [ov] of the original ([rv < voff < rv + ov]): the source
    slice is empty while the target slice, its negative end counted from the
    bottom, is not. *)
Theorem recrop_raises_past_rotated_height
    (A : Type) (dt : Dtype A) (original rotated : ndarray A) (voff hoff : Z) :
  Z.of_nat (Np.nrows rotated) < voff ->
  voff < Z.of_nat (Np.nrows rotated) + Z.of_nat (Np.nrows original) ->
  recrop original rotated voff hoff = Raise ValueError.
Proof. apply recrop_raises. Qed.

(** ** Closed instances of the further properties *)

Lemma image4_turned_wf : Np.wf image4_turned.
Proof. unfold Np.wf. simpl. repeat constructor. Defined.

(** The turned image moved down by one row and left by one column. *)
Lemma recrop_translates_witness :
  (Np.wf image4_turned
   /\ - Z.of_nat (Np.nrows image4) <= 1 <= Z.of_nat (Np.nrows image4_turned)
   /\ - Z.of_nat (nd_ncols image4) <= -1 <= Z.of_nat (nd_ncols image4_turned))
  /\ exists s,
       recrop image4 image4_turned 1 (-1) = Ok s
       /\ Np.shape s = (4%nat, 4%nat)
       /\ Np.get s 0 1 = Some 12
       /\ Np.get s 0 0 = Some 0.
Proof.
  assert (H1 : - Z.of_nat (Np.nrows image4) <= 1
               <= Z.of_nat (Np.nrows image4_turned)) by (vm_compute; intuition discriminate).
  assert (H2 : - Z.of_nat (nd_ncols image4) <= -1
               <= Z.of_nat (nd_ncols image4_turned)) by (vm_compute; intuition discriminate).
  split; [pose proof image4_turned_wf; tauto|].
  destruct (recrop_translates_and_zero_fills image4 image4_turned 1 (-1)
              image4_turned_wf H1 H2) as (s & E & Hs & _ & Hc).
  exists s. split; [exact E|]. split; [exact Hs|].
  destruct (Hc 0%nat 1%nat) as [Hin _]; [vm_compute; lia | vm_compute; lia |].
  destruct (Hc 0%nat 0%nat) as [_ Hout]; [vm_compute; lia | vm_compute; lia |].
  split.
  - destruct Hin as [_ Hg]; [|exact Hg].
    unfold in_array. vm_compute. intuition discriminate.
  - apply Hout. unfold in_array. intros [_ [Hx _]]. vm_compute in Hx.
    by apply Hx.
Defined.

(** The offset 6 lies past the 4 rows of the turned image by less than 4. *)
Lemma recrop_raises_witness :
  (Z.of_nat (Np.nrows image4_turned) < 6
   /\ 6 < Z.of_nat (Np.nrows image4_turned) + Z.of_nat (Np.nrows image4))
  /\ recrop image4 image4_turned 6 0 = Raise ValueError.
Proof.
  assert (H1 : Z.of_nat (Np.nrows image4_turned) < 6) by (vm_compute; reflexivity).
  assert (H2 : 6 < Z.of_nat (Np.nrows image4_turned)
                   + Z.of_nat (Np.nrows image4)) by (vm_compute; reflexivity).
  split; [tauto|].
  exact (recrop_raises_past_rotated_height Z _ image4 image4_turned 6 0 H1 H2).
Defined.

(** The first two points of the line from (0, 0) to (3, 7). *)
Lemma line_has_no_gaps_witness :
  (points (line 0 0 3 7) !! 0%nat = Some (0, 0)
   /\ points (line 0 0 3 7) !! 1%nat = Some (0, 1))
  /\ adjacent (0, 0) (0, 1) /\ (0, 0) <> (0, 1).
Proof.
  assert (H1 : points (line 0 0 3 7) !! 0%nat = Some (0, 0)) by reflexivity.
  assert (H2 : points (line 0 0 3 7) !! 1%nat = Some (0, 1)) by reflexivity.
  split; [tauto|].
  exact (line_has_no_gaps 0 0 3 7 0%nat (0, 0) (0, 1) H1 H2).
Defined.





(** The request x in [1, 4), y in [0, 3) inside the 4 x 4 image. *)
Lemma crop_variants_agree_witness :
  (3 <= rect_height (requested 1 4 0 3)
   /\ 3 <= rect_width (requested 1 4 0 3)
   /\ inside (Plain image4) (requested 1 4 0 3))
  /\ crop_image_to_rect (Plain image4) 1 1 1 4 0 3
     = Ok (Some (crop_image_to_rect2 (Plain image4) 1 1 1 4 0 3)).
Proof.
  assert (H1 : 3 <= rect_height (requested 1 4 0 3)) by (vm_compute; discriminate).
  assert (H2 : 3 <= rect_width (requested 1 4 0 3)) by (vm_compute; discriminate).
  assert (H3 : inside (Plain image4) (requested 1 4 0 3)).
  { unfold inside. vm_compute. intuition discriminate. }
  split; [tauto|].
  exact (crop_variants_agree_inside (Plain image4) 1 1 1 4 0 3 H1 H2 H3).
Defined.

(** The request x in [-1, 3), y in [1, 6): the part in the image is 3 x 3. *)
Lemma crop_rect2_clamped_witness :
  (img_wf (Plain image4) /\ overlaps (Plain image4) (requested (-1) 3 1 6))
  /\ exists sub,
       crop_image_to_rect2 (Plain image4) 1 1 (-1) 3 1 6
       = (sub, (1 - inject_Z 0)%Q, (1 - inject_Z 1)%Q)
       /\ img_shape sub = (3%nat, 3%nat)
       /\ Np.get (img_data sub) 0 0 = Some 5.
Proof.
  assert (H : overlaps (Plain image4) (requested (-1) 3 1 6)).
  { exists 0, 1. unfold in_rect, in_image. vm_compute. intuition discriminate. }
  split; [pose proof image4_wf; tauto|].
  destruct (crop_rect2_is_clamped_part (Plain image4) 1 1 (-1) 3 1 6
              image4_wf H) as (sub & E & _ & Hs & _ & _ & Hc).
  exists sub. split; [exact E|]. split; [exact Hs|].
  destruct (Hc 0%nat 0%nat) as [_ Hg];
    [vm_compute; reflexivity | vm_compute; reflexivity |].
  exact Hg.
Defined.

(** The request x in [-5, -1) lies left of the 4 x 4 image, yet three
    columns come back. *)
Lemma crop_rect2_wraps_witness :
  (r_xmax (requested (-5) (-1) 0 4) < 0
   /\ - img_width (Plain image4) < r_xmax (requested (-5) (-1) 0 4)
   /\ r_xmin (requested (-5) (-1) 0 4) <= r_xmax (requested (-5) (-1) 0 4))
  /\ (img_shape (crop_image_to_rect2 (Plain image4) 1 1 (-5) (-1) 0 4).1.1).2
     = 3%nat
  /\ ~ overlaps (Plain image4) (requested (-5) (-1) 0 4).
Proof.
  assert (H1 : r_xmax (requested (-5) (-1) 0 4) < 0) by (vm_compute; reflexivity).
  assert (H2 : - img_width (Plain image4) < r_xmax (requested (-5) (-1) 0 4))
    by (vm_compute; reflexivity).
  assert (H3 : r_xmin (requested (-5) (-1) 0 4)
               <= r_xmax (requested (-5) (-1) 0 4)) by (vm_compute; discriminate).
  split; [tauto|].
  exact (crop_rect2_wraps_negative_bound (Plain image4) 1 1 (-5) (-1) 0 4
           H1 H2 H3).
Defined.

(** Diameters 4 and 2: ellipticity one half. *)
Lemma beam_ellipticity_witness :
  ((0 < 4)%Q /\ (0 < 2)%Q)
  /\ exists e c c',
       beam_ellipticity (fun x => x) 4 2 = Some (e, c)
       /\ beam_ellipticity (fun x => x) 2 4 = Some (e, c')
       /\ (0 < e)%Q /\ (e <= 1)%Q /\ ((e == 1)%Q <-> (4 == 2)%Q).
Proof.
  assert (H1 : (0 < 4)%Q) by reflexivity.
  assert (H2 : (0 < 2)%Q) by reflexivity.
  split; [tauto|].
  exact (beam_ellipticity_range (fun x => x) 4 2 H1 H2).
Defined.

(** A colour map for data between -1 and 0. *)
Lemma set_zero_to_lightgray_witness :
  (length black256 = 256%nat /\ (-1 < 0)%Q /\ (0 == 0)%Q)
  /\ set_zero_to_lightgray black256 (-1) 0 = Raise IndexError.
Proof.
  assert (H1 : length black256 = 256%nat) by reflexivity.
  assert (H2 : (-1 < 0)%Q) by reflexivity.
  assert (H3 : (0 == 0)%Q) by reflexivity.
  split; [tauto|].
  exact (proj1 (set_zero_to_lightgray_edges black256 (-1) 0 H1) H2 H3).
Defined.


(** ** A line inside a plain image *)

Lemma select_zip_with_all {A B C} (f : A -> B -> bool) (l : list A)
    (k : list B) (v : list C) :
  Forall (fun p => f p.1 p.2 = true) (zip l k) ->
  length l = length k -> length v = length l ->
  Np.select (zip_with f l k) v = v.
Proof.
  revert k v. induction l as [|x l IH]; intros [|y k] [|z v]; simpl; try done.
  intros H [= Hk] [= Hv]. apply Forall_cons in H as [Hxy H].
  simpl in Hxy. rewrite Hxy. f_equal. by apply IH.
Qed.

Lemma Forall2_of_zip {A B} (P : A -> B -> Prop) (l : list A) (k : list B) :
  length l = length k -> Forall (fun p => P p.1 p.2) (zip l k) ->
  Forall2 P l k.
Proof.
  revert k. induction l as [|x l IH]; intros [|y k] Hk H; simplify_eq/=;
    [constructor|].
  apply Forall_cons in H as [Hxy H]. constructor; auto.
Qed.

(** X19. When every point of the rounded line lies in a plain image,
    [values_along_line] drops nothing: x and y are the columns and rows of
    the whole line, and each of the four arrays has
    max(|delta row|, |delta col|) + 1 entries. *)
Theorem values_along_line_keeps_inside_line
    (lib : NumLib) (A : Type) (dt : Dtype A) (a : ndarray A)
    (x0 y0 x1 y1 : Q) :
  let path := line (Py.round y0) (Py.round x0) (Py.round y1) (Py.round x1) in
  let n := Z.to_nat (Z.max (Z.abs (Py.round y1 - Py.round y0))
                           (Z.abs (Py.round x1 - Py.round x0)) + 1) in
  Np.wf a ->
  Forall (fun p => in_image (Plain a) p.2 p.1) (points path) ->
  exists z s,
    values_along_line (Plain a) x0 y0 x1 y1
    = Ok (inject_Z <$> path.2, inject_Z <$> path.1, z, s)
    /\ length path.1 = n /\ length path.2 = n
    /\ length z = n /\ length s = n.
Proof.
  intros path n Hwf Hin.
  destruct (line_lengths (Py.round y0) (Py.round x0)
                         (Py.round y1) (Py.round x1)) as [Hlr Hlc].
  fold path n in Hlr, Hlc.
  unfold values_along_line, line_indices. cbn [img_shape img_data Np.shape].
  fold path. unfold points in Hin.
  destruct path as [rr_full cc_full]. cbn [fst snd] in *.
  set (inb := fun r c : Z =>
         (0 <=? r) && (r <? Z.of_nat (Np.nrows a))
         && (0 <=? c) && (c <? Z.of_nat (nd_ncols a))).
  set (d_full := if Py.lt 0 _ then _ else _).
  assert (Hd : length d_full = n).
  { unfold d_full. destruct (Py.lt 0 _).
    - by rewrite length_fmap, length_linspace01.
    - by rewrite length_replicate. }
  assert (Hall : Forall (fun p => inb p.1 p.2 = true) (zip rr_full cc_full)).
  { eapply Forall_impl; [exact Hin|]. intros [r c].
    unfold in_image, img_height, img_width, inb.
    cbn [img_shape img_data Np.shape fst snd].
    rewrite !andb_true_iff, !Z.leb_le, !Z.ltb_lt. tauto. }
  rewrite !compress_ok by (rewrite length_zip_with; lia). cbn [bind].
  rewrite !select_zip_with_all by (done || lia).
  destruct (take_points_in_range a rr_full cc_full Hwf) as (z & Ez & Hz).
  { apply Forall2_of_zip; [lia|].
    eapply Forall_impl; [exact Hin|]. intros [r c].
    unfold in_image, img_height, img_width.
    cbn [img_shape img_data Np.shape fst snd]. tauto. }
  cbn [img_take_points]. rewrite Ez. cbn [bind].
  exists (to_float <$> z), d_full. split; [reflexivity|].
  rewrite length_fmap. repeat split; lia.
Qed.

(** The line from (0, 0) to (3, 3) on the 4 x 4 image. *)
Lemma values_along_line_keeps_witness :
  (Np.wf image4
   /\ Forall (fun p => in_image (Plain image4) p.2 p.1)
             (points (line (Py.round 0) (Py.round 0)
                           (Py.round 3) (Py.round 3))))
  /\ exists z s,
       values_along_line (lib := half_turn_lib) (Plain image4) 0 0 3 3
       = Ok (inject_Z <$> [0; 1; 2; 3], inject_Z <$> [0; 1; 2; 3], z, s)
       /\ length z = 4%nat /\ length s = 4%nat.
Proof.
  assert (H : Forall (fun p => in_image (Plain image4) p.2 p.1)
                     (points (line (Py.round 0) (Py.round 0)
                                   (Py.round 3) (Py.round 3)))).
  { vm_compute. repeat constructor; intuition discriminate. }
  split; [split; [exact image4_wf | exact H]|].
  destruct (values_along_line_keeps_inside_line half_turn_lib Z _ image4
              0 0 3 3 image4_wf H) as (z & s & E & _ & _ & Hz & Hs).
  exists z, s. split; [exact E|]. split; [exact Hz | exact Hs].
Defined.

(** ** [axes_arrays] *)

(** X20. [axes_arrays] returns two segments through the centre: in exact
    arithmetic, and whatever values the sine and cosine take, the midpoint
    of the major axis and the midpoint of the minor axis are (xc, yc), and
    the two axes are perpendicular (their direction vectors have scalar
    product zero). *)
Theorem axes_arrays_cross_at_centre
    (lib : NumLib) (xc_px yc_px d_major d_minor phi : Q) :
  exists xa xb ya yb xc xd yc yd,
    axes_arrays xc_px yc_px d_major (Some d_minor) phi
    = (([xa; xb], [ya; yb]), Some ([xc; xd], [yc; yd]))
    /\ axes_arrays xc_px yc_px d_major None phi = (([xa; xb], [ya; yb]), None)
    /\ (xa + xb == 2 * xc_px)%Q /\ (ya + yb == 2 * yc_px)%Q
    /\ (xc + xd == 2 * xc_px)%Q /\ (yc + yd == 2 * yc_px)%Q
    /\ ((xb - xa) * (xd - xc) + (yb - ya) * (yd - yc) == 0)%Q.
Proof.
  unfold axes_arrays, rotate_points. cbn [fmap list_fmap zip_with fst snd].
  do 8 eexists. split; [reflexivity|]. split; [reflexivity|].
  repeat split; unfold Qdiv; ring.
Qed.
